(** * ChimeNet MicroPython node: a shallow embedding of [chime_node/main.py]

    The node is a single object ([ChimeNode]) whose methods mutate its
    fields, drive three pieces of hardware (status LED, button, PWM buzzer)
    and publish MQTT messages.  The embedding keeps that shape:

    - the fields of [self] are a record [node];
    - a method is a computation in a small monad [M] that threads the node,
      accumulates the hardware and network calls it makes as a trace of
      [event]s, and either returns or raises a Python exception.  A raised
      exception keeps the mutations and the trace made so far, as in Python;
    - values read from the outside (the clock [time.ticks_ms()], the level of
      the button pin, an incoming MQTT packet) are arguments of the method
      that reads them;
    - the library functions the file imports but does not define
      ([ujson.loads], [ujson.dumps], [bytes.decode], [time.ticks_diff], the
      MAC address of the interface) are the fields of a class [Platform].

    Console output ([print]) is not part of the model. *)

From Stdlib Require Import ZArith List String Ascii Bool Lia QArith_base.
From Stdlib Require Import DecimalString.
Import ListNotations.

Set Warnings "-register-all".

Local Open Scope string_scope.
Local Open Scope list_scope.
Local Open Scope Z_scope.

(** ** Values decoded from JSON

    [ujson.loads] yields dicts, lists, strings, ints, floats, booleans and
    [None].  A dict is kept as the list of its items in iteration order;
    a float only ever meets a truth test here, so a rational stands for it. *)

Inductive json : Type :=
| JNull
| JBool (b : bool)
| JInt (z : Z)
| JFloat (q : Q)
| JStr (s : string)
| JArr (items : list json)
| JObj (members : list (string * json)).

(** The Python exceptions that the modelled code can meet. *)
Inductive exn : Type :=
| ValueError
| KeyError
| TypeError
| AttributeError
| IndexError
| UnicodeError.

(** Calls that leave the node: PWM buzzer, delays, status LED, MQTT publish. *)
Inductive event : Type :=
| BuzzerFreq (hz : Z)
| BuzzerDuty (duty : Z)
| SleepMs (ms : Z)
| LedOn
| LedValue (level : bool)
| Publish (topic payload : string) (retain : bool).

(** ** Configuration *)

Definition USER_ID : string := "micropython_user".

Module LcgpMode.
Definition DO_NOT_DISTURB : Z := 0.
Definition AVAILABLE : Z := 1.
Definition CHILL_GRINDING : Z := 2.
Definition GRINDING : Z := 3.
End LcgpMode.
Import LcgpMode.

Definition NOTE_FREQUENCIES : list (string * Z) :=
  [ ("C4", 262); ("D4", 294); ("E4", 330); ("F4", 349); ("G4", 392);
    ("A4", 440); ("B4", 494); ("C5", 523); ("D5", 587); ("E5", 659) ].

Definition DEFAULT_CHIME : list (string * Z) :=
  [ ("C4", 300); ("E4", 300); ("G4", 300); ("C5", 500) ].

(** ** Python primitives on values *)

(** Lookup of a key in the items of a dict. *)
Fixpoint assoc {A : Type} (key : string) (kv : list (string * A)) : option A :=
  match kv with
  | [] => None
  | (k, v) :: rest => if String.eqb k key then Some v else assoc key rest
  end.

(** Truth value of an object, as tested by [if x:]. *)
Definition truthy (v : json) : bool :=
  match v with
  | JNull => false
  | JBool b => b
  | JInt z => negb (z =? 0)
  | JFloat q => negb (Qnum q =? 0)
  | JStr s => negb (String.eqb s "")
  | JArr items => match items with [] => false | _ => true end
  | JObj members => match members with [] => false | _ => true end
  end.

(** The one-character strings a [for] loop draws from a string. *)
Fixpoint chars (s : string) : list json :=
  match s with
  | EmptyString => []
  | String c rest => JStr (String c EmptyString) :: chars rest
  end.

(** [str.endswith]. *)
Definition endswith (s suffix : string) : bool :=
  let n := String.length s in
  let k := String.length suffix in
  (k <=? n)%nat && String.eqb (substring (n - k) k s) suffix.

(** ** The node and the monad of its methods *)

Record node : Type := mkNode {
  node_id : string;
  chime_id : string;
  current_mode : Z;
  last_button_press : Z;
  button_pressed : bool;
  led_state : bool;
  last_led_toggle : Z;
  pending_chime_id : json;
  chime_response_deadline : Z
}.

Definition set_current_mode (v : Z) (s : node) : node :=
  mkNode (node_id s) (chime_id s) v (last_button_press s) (button_pressed s)
         (led_state s) (last_led_toggle s) (pending_chime_id s)
         (chime_response_deadline s).

Definition set_last_button_press (v : Z) (s : node) : node :=
  mkNode (node_id s) (chime_id s) (current_mode s) v (button_pressed s)
         (led_state s) (last_led_toggle s) (pending_chime_id s)
         (chime_response_deadline s).

Definition set_button_pressed (v : bool) (s : node) : node :=
  mkNode (node_id s) (chime_id s) (current_mode s) (last_button_press s) v
         (led_state s) (last_led_toggle s) (pending_chime_id s)
         (chime_response_deadline s).

Definition set_led_state (v : bool) (s : node) : node :=
  mkNode (node_id s) (chime_id s) (current_mode s) (last_button_press s)
         (button_pressed s) v (last_led_toggle s) (pending_chime_id s)
         (chime_response_deadline s).

Definition set_last_led_toggle (v : Z) (s : node) : node :=
  mkNode (node_id s) (chime_id s) (current_mode s) (last_button_press s)
         (button_pressed s) (led_state s) v (pending_chime_id s)
         (chime_response_deadline s).

Definition set_pending_chime_id (v : json) (s : node) : node :=
  mkNode (node_id s) (chime_id s) (current_mode s) (last_button_press s)
         (button_pressed s) (led_state s) (last_led_toggle s) v
         (chime_response_deadline s).

Definition set_chime_response_deadline (v : Z) (s : node) : node :=
  mkNode (node_id s) (chime_id s) (current_mode s) (last_button_press s)
         (button_pressed s) (led_state s) (last_led_toggle s)
         (pending_chime_id s) v.

Inductive outcome (A : Type) : Type :=
| Return (a : A)
| Raise (e : exn).
Arguments Return {A} a.
Arguments Raise {A} e.

Definition M (A : Type) : Type := node -> outcome A * node * list event.

Definition ret {A : Type} (a : A) : M A := fun s => (Return a, s, []).

Definition bind {A B : Type} (m : M A) (k : A -> M B) : M B :=
  fun s =>
    match m s with
    | (Return a, s1, t1) =>
        match k a s1 with
        | (r, s2, t2) => (r, s2, t1 ++ t2)
        end
    | (Raise e, s1, t1) => (Raise e, s1, t1)
    end.

Definition raise {A : Type} (e : exn) : M A := fun s => (Raise e, s, []).

(** [try: m  except Exception as e: handler e]. *)
Definition try_except {A : Type} (m : M A) (handler : exn -> M A) : M A :=
  fun s =>
    match m s with
    | (Return a, s1, t1) => (Return a, s1, t1)
    | (Raise e, s1, t1) =>
        match handler e s1 with
        | (r, s2, t2) => (r, s2, t1 ++ t2)
        end
    end.

Definition get : M node := fun s => (Return s, s, []).
Definition modify (f : node -> node) : M unit := fun s => (Return tt, f s, []).
Definition emit (ev : event) : M unit := fun s => (Return tt, s, [ev]).

Declare Scope py_scope.
Delimit Scope py_scope with py.
Notation "x <- m ;; k" := (bind m (fun x => k))
  (at level 61, m at next level, right associativity) : py_scope.
Notation "m ;; k" := (bind m (fun _ => k))
  (at level 61, right associativity) : py_scope.
Local Open Scope py_scope.

(** [for x in items: body x]. *)
Fixpoint for_each {A : Type} (items : list A) (body : A -> M unit) : M unit :=
  match items with
  | [] => ret tt
  | x :: rest => body x ;; for_each rest body
  end.

(** The three projections of a run. *)
Definition result_of {A : Type} (r : outcome A * node * list event) : outcome A :=
  fst (fst r).
Definition node_of {A : Type} (r : outcome A * node * list event) : node :=
  snd (fst r).
Definition trace_of {A : Type} (r : outcome A * node * list event) : list event :=
  snd r.

(** The MQTT messages among the events of a trace. *)
Fixpoint published (t : list event) : list (string * string * bool) :=
  match t with
  | [] => []
  | Publish topic payload retain :: rest => (topic, payload, retain) :: published rest
  | _ :: rest => published rest
  end.

(** [d[key]]: only a dict can be indexed by a string. *)
Definition py_getitem (d : json) (key : string) : M json :=
  match d with
  | JObj members =>
      match assoc key members with
      | Some v => ret v
      | None => raise KeyError
      end
  | _ => raise TypeError
  end.

(** [d.get(key, default)]. *)
Definition py_get (d : json) (key : string) (default : json) : M json :=
  match d with
  | JObj members =>
      match assoc key members with
      | Some v => ret v
      | None => ret default
      end
  | _ => raise AttributeError
  end.

(** The items a [for] loop draws from a value. *)
Definition py_iter (v : json) : M (list json) :=
  match v with
  | JArr items => ret items
  | JStr s => ret (chars s)
  | JObj members => ret (map (fun kv => JStr (fst kv)) members)
  | _ => raise TypeError
  end.

(** [note in NOTE_FREQUENCIES] followed by [NOTE_FREQUENCIES[note]].  The keys
    of the table are strings written in the source, which MicroPython
    interns; its dict lookup answers "not found" at once for a key that is not
    a string, without hashing it.  So no element of the notes, not even a list
    or a dict, makes the test raise: it is simply not a note. *)
Definition note_frequency (note : json) : M (option Z) :=
  match note with
  | JStr name => ret (assoc name NOTE_FREQUENCIES)
  | _ => ret None
  end.

(** [l[i]] on a list, with Python's negative indices. *)
Definition py_index {A : Type} (l : list A) (i : Z) : M A :=
  let n := Z.of_nat (List.length l) in
  let j := if i <? 0 then i + n else i in
  if (0 <=? j) && (j <? n) then
    match nth_error l (Z.to_nat j) with
    | Some x => ret x
    | None => raise IndexError
    end
  else raise IndexError.

(** ** Library functions the node relies on *)

Class Platform : Type := {
  (** [ubinascii.hexlify(network.WLAN().config('mac')).decode()] *)
  mac_hex : string;
  (** [ujson.loads]; [None] stands for the [ValueError] of a malformed text *)
  loads : string -> option json;
  (** [ujson.dumps] *)
  dumps : json -> string;
  (** [bytes.decode]; [None] stands for [UnicodeError] *)
  decode : string -> option string;
  (** [time.ticks_diff] *)
  ticks_diff : Z -> Z -> Z
}.

(** The gating decision of [handle_ring_request]: its three local variables. *)
Record gating : Type := mkGating {
  should_chime : bool;
  should_auto_respond : bool;
  auto_response_type : string
}.

(** What one iteration of the main loop reads from outside. *)
Record tick : Type := mkTick {
  incoming : option (string * string);
  t_msg : Z;
  pin : Z;
  t_button : Z;
  t_led : Z;
  t_poll : Z
}.

(** The entry points of the node once it runs. *)
Inductive op : Type :=
| OpMessage (topic msg : string) (now : Z)
| OpButton (pin_value now : Z)
| OpLed (now : Z)
| OpPoll (now : Z)
| OpStatusTimer.

Section Node.
Context {P : Platform}.

(** [ChimeNode.__init__]: the state variables. *)
Definition init_node : node :=
  {| node_id := ("micropython_" ++ mac_hex)%string;
     chime_id := ("chime_" ++ mac_hex)%string;
     current_mode := AVAILABLE;
     last_button_press := 0;
     button_pressed := false;
     led_state := false;
     last_led_toggle := 0;
     pending_chime_id := JStr "";
     chime_response_deadline := 0 |}.

Definition get_iso_timestamp : string := "2025-01-01T00:00:00Z".

Definition response_topic (s : node) : string :=
  ("/" ++ USER_ID ++ "/chime/" ++ chime_id s ++ "/response")%string.

Definition response_data (s : node) (response_type : string)
           (original_chime_id : json) : json :=
  JObj [ ("timestamp", JStr get_iso_timestamp);
         ("response", JStr response_type);
         ("node_id", JStr (node_id s));
         ("original_chime_id", original_chime_id) ].

(** [send_response].  [Publish] stands for the call to
    [mqtt_client.publish]; an error of that call is caught on the spot, here
    and in [publish_status], so the node goes on the same way whether the
    broker was reached or not. *)
Definition send_response (response_type : string) (original_chime_id : json)
  : M unit :=
  s <- get ;;
  emit (Publish (response_topic s)
                (dumps (response_data s response_type original_chime_id))
                false).

Definition status_topic (s : node) : string :=
  ("/" ++ USER_ID ++ "/chime/" ++ chime_id s ++ "/status")%string.

Definition status_mode_names : list string :=
  [ "DoNotDisturb"; "Available"; "ChillGrinding"; "Grinding" ].

Definition status_data (s : node) (mode_name : string) : json :=
  JObj [ ("chime_id", JStr (chime_id s));
         ("online", JBool true);
         ("last_seen", JStr get_iso_timestamp);
         ("node_id", JStr (node_id s));
         ("mode", JStr mode_name) ].

(** [publish_status]: the mode name is looked up while the dict is built,
    outside the [try]. *)
Definition publish_status : M unit :=
  s <- get ;;
  mode_name <- py_index status_mode_names (current_mode s) ;;
  emit (Publish (status_topic s) (dumps (status_data s mode_name)) true).

(** One note of a chime: tone on at half duty, hold, tone off, gap. *)
Definition play_note (frequency duration : Z) : M unit :=
  emit (BuzzerFreq frequency) ;;
  emit (BuzzerDuty 512) ;;
  emit (SleepMs duration) ;;
  emit (BuzzerDuty 0) ;;
  emit (SleepMs 50).

(** [play_chime]. *)
Definition play_chime (notes chords : json) : M unit :=
  (if truthy notes then
     items <- py_iter notes ;;
     for_each items (fun note =>
       frequency <- note_frequency note ;;
       match frequency with
       | Some hz => play_note hz 300
       | None => ret tt
       end)
   else
     for_each DEFAULT_CHIME (fun entry =>
       frequency <- note_frequency (JStr (fst entry)) ;;
       match frequency with
       | Some hz => play_note hz (snd entry)
       | None => ret tt
       end)) ;;
  emit (BuzzerDuty 0).

(** The [if]/[elif] chain on the mode in [handle_ring_request]. *)
Definition gate (request_chime_id : json) (now : Z) : M gating :=
  s <- get ;;
  if current_mode s =? DO_NOT_DISTURB then
    ret (mkGating false false "")
  else if current_mode s =? AVAILABLE then
    ret (mkGating true false "")
  else if current_mode s =? CHILL_GRINDING then
    modify (set_pending_chime_id request_chime_id) ;;
    modify (set_chime_response_deadline (now + 10000)) ;;
    ret (mkGating true false "")
  else if current_mode s =? GRINDING then
    ret (mkGating true true "Positive")
  else
    ret (mkGating false false "").

(** The body of the [try] in [handle_ring_request]. *)
Definition ring_request_body (message : string) (now : Z) : M unit :=
  data <- (match loads message with
           | Some v => ret v
           | None => raise ValueError
           end) ;;
  request_chime_id <- py_getitem data "chime_id" ;;
  request_user <- py_getitem data "user" ;;
  g <- gate request_chime_id now ;;
  if should_chime g then
    notes <- py_get data "notes" (JArr []) ;;
    chords <- py_get data "chords" (JArr []) ;;
    play_chime notes chords ;;
    if should_auto_respond g then
      send_response (auto_response_type g) request_chime_id
    else ret tt
  else ret tt.

Definition handle_ring_request (message : string) (now : Z) : M unit :=
  try_except (ring_request_body message now) (fun _ => ret tt).

(** [mqtt_callback]. *)
Definition mqtt_callback (topic msg : string) (now : Z) : M unit :=
  match decode topic with
  | None => raise UnicodeError
  | Some topic_str =>
      match decode msg with
      | None => raise UnicodeError
      | Some message =>
          if endswith topic_str "/ring" then handle_ring_request message now
          else ret tt
      end
  end.

Definition button_mode_names : list string :=
  [ "DO_NOT_DISTURB"; "AVAILABLE"; "CHILL_GRINDING"; "GRINDING" ].

(** The test that opens [handle_button]: a new, debounced press. *)
Definition qualifying_press (s : node) (pin_value now : Z) : bool :=
  (pin_value =? 0) && negb (button_pressed s)
  && (ticks_diff now (last_button_press s) >? 500).

(** [handle_button].  The two assignments that open the first branch do not
    touch the fields read after them, which are taken from [s]. *)
Definition handle_button (pin_value now : Z) : M unit :=
  s <- get ;;
  if qualifying_press s pin_value now then
    modify (set_button_pressed true) ;;
    modify (set_last_button_press now) ;;
    if truthy (pending_chime_id s) then
      send_response "Positive" (pending_chime_id s) ;;
      modify (set_pending_chime_id (JStr "")) ;;
      modify (set_chime_response_deadline 0)
    else
      modify (set_current_mode ((current_mode s + 1) mod 4)) ;;
      s' <- get ;;
      _ <- py_index button_mode_names (current_mode s') ;;
      publish_status
  else if negb (pin_value =? 0) && button_pressed s then
    modify (set_button_pressed false)
  else ret tt.

(** [handle_pending_responses]. *)
Definition handle_pending_responses (now : Z) : M unit :=
  s <- get ;;
  if truthy (pending_chime_id s) && (now >? chime_response_deadline s) then
    send_response "Positive" (pending_chime_id s) ;;
    modify (set_pending_chime_id (JStr "")) ;;
    modify (set_chime_response_deadline 0)
  else ret tt.

(** The tail of [handle_status_led], reached in the three blinking modes. *)
Definition blink (now blink_interval : Z) : M unit :=
  s <- get ;;
  if ticks_diff now (last_led_toggle s) >? blink_interval then
    modify (set_led_state (negb (led_state s))) ;;
    emit (LedValue (negb (led_state s))) ;;
    modify (set_last_led_toggle now)
  else ret tt.

(** [handle_status_led]. *)
Definition handle_status_led (now : Z) : M unit :=
  s <- get ;;
  if current_mode s =? DO_NOT_DISTURB then blink now 2000
  else if current_mode s =? AVAILABLE then blink now 1000
  else if current_mode s =? CHILL_GRINDING then blink now 500
  else emit LedOn.

(** [mqtt_client.check_msg()]: hands a waiting packet to the callback.
    [packet] is what the call found on the socket; a failure of the read
    itself, which belongs to the MQTT client, is outside the model. *)
Definition check_msg (packet : option (string * string)) (now : Z) : M unit :=
  match packet with
  | Some (topic, msg) => mqtt_callback topic msg now
  | None => ret tt
  end.

(** The body of the [while True] loop of [run]. *)
Definition loop_iteration (i : tick) : M unit :=
  check_msg (incoming i) (t_msg i) ;;
  handle_button (pin i) (t_button i) ;;
  handle_status_led (t_led i) ;;
  handle_pending_responses (t_poll i) ;;
  emit (SleepMs 10).

Fixpoint run_loop (inputs : list tick) : M unit :=
  match inputs with
  | [] => ret tt
  | i :: rest => loop_iteration i ;; run_loop rest
  end.

Definition do_op (o : op) : M unit :=
  match o with
  | OpMessage topic msg now => mqtt_callback topic msg now
  | OpButton pin_value now => handle_button pin_value now
  | OpLed now => handle_status_led now
  | OpPoll now => handle_pending_responses now
  | OpStatusTimer => publish_status
  end.

(** The states the node can be in: the one [__init__] builds, and whatever
    an entry point leaves behind, whether it returned or raised. *)
Inductive reachable : node -> Prop :=
| reach_init : reachable init_node
| reach_step : forall s o, reachable s -> reachable (node_of (do_op o s)).

(** The required fields of a request text: [None] when the text is not
    JSON, is not a dict, or lacks "chime_id" or "user". *)
Definition request_fields (message : string) : option (json * json) :=
  match loads message with
  | Some (JObj members) =>
      match assoc "chime_id" members, assoc "user" members with
      | Some X, Some u => Some (X, u)
      | _, _ => None
      end
  | _ => None
  end.

End Node.

(** ** Vocabulary of the statements *)

(** [preserves f m]: running [m] does not change the view [f] of the node,
    whether [m] returns or raises. *)
Definition preserves {A X : Type} (f : node -> X) (m : M A) : Prop :=
  forall s, f (node_of (m s)) = f s.

(** [mute m]: running [m] publishes no MQTT message. *)
Definition mute {A : Type} (m : M A) : Prop :=
  forall s, published (trace_of (m s)) = [].

(** The node after a press that advances the mode. *)
Definition advanced (now : Z) (s : node) : node :=
  set_current_mode ((current_mode s + 1) mod 4)
    (set_last_button_press now (set_button_pressed true s)).

(** The node after a press that answers the pending chime. *)
Definition answered (now : Z) (s : node) : node :=
  set_chime_response_deadline 0
    (set_pending_chime_id (JStr "")
      (set_last_button_press now (set_button_pressed true s))).

(** What one note sends to the buzzer: tone on at half duty for [duration]
    milliseconds, tone off, a gap of 50 ms. *)
Definition note_trace (frequency duration : Z) : list event :=
  [ BuzzerFreq frequency; BuzzerDuty 512; SleepMs duration;
    BuzzerDuty 0; SleepMs 50 ].

(** What a list of note names sends to the buzzer when played as explicit
    notes: 300 ms for each name of the table, nothing for any other name. *)
Definition explicit_trace (names : list string) : list event :=
  flat_map (fun name =>
              match assoc name NOTE_FREQUENCIES with
              | Some hz => note_trace hz 300
              | None => []
              end) names.

(** The notes and chords of a parsed request, as [data.get(..., [])] reads
    them. *)
Definition request_notes (members : list (string * json)) : json :=
  match assoc "notes" members with Some v => v | None => JArr [] end.

Definition request_chords (members : list (string * json)) : json :=
  match assoc "chords" members with Some v => v | None => JArr [] end.

(** The node after a ring request has been taken in ChillGrinding. *)
Definition deferred (X : json) (now : Z) (s : node) : node :=
  set_chime_response_deadline (now + 10000) (set_pending_chime_id X s).

(** The fields that decide what the node answers and to whom: identifiers,
    mode, pending chime and deadline. *)
Definition core (s : node) : string * string * Z * json * Z :=
  (node_id s, chime_id s, current_mode s, pending_chime_id s,
   chime_response_deadline s).

(** The node after the pending chime has been answered by timeout. *)
Definition expired (s : node) : node :=
  set_chime_response_deadline 0 (set_pending_chime_id (JStr "") s).

(** What holds of the node at all times: the mode is one of the four, and a
    chime is pending only in ChillGrinding. *)
Definition node_invariant (s : node) : Prop :=
  0 <= current_mode s < 4 /\
  (truthy (pending_chime_id s) = true -> current_mode s = CHILL_GRINDING).

(** An iteration of the main loop in which no packet arrives and the button
    line reads released. *)
Definition idle (i : tick) : Prop := incoming i = None /\ pin i <> 0.

(** ** The rest of the node, and the vocabulary of further statements *)

Section NodeRest.
Context {P : Platform}.

(** The topic [connect_mqtt] subscribes to. *)
Definition ring_topic (s : node) : string :=
  ("/" ++ USER_ID ++ "/chime/" ++ chime_id s ++ "/ring")%string.

(** Entry points run one after the other, up to the first that raises. *)
Fixpoint run_ops (ops : list op) : M unit :=
  match ops with
  | [] => ret tt
  | o :: rest => do_op o ;; run_ops rest
  end.

Definition list_topic : string := ("/" ++ USER_ID ++ "/chime/list")%string.

Definition notes_topic (s : node) : string :=
  ("/" ++ USER_ID ++ "/chime/" ++ chime_id s ++ "/notes")%string.

Definition chords_topic (s : node) : string :=
  ("/" ++ USER_ID ++ "/chime/" ++ chime_id s ++ "/chords")%string.

Definition CHORDS : list string := [ "C"; "Am"; "F"; "G" ].

(** [list_data] of [publish_chime_info].  [note_names] stands for
    [list(NOTE_FREQUENCIES.keys())]: the order in which a dict lists its keys
    is the interpreter's business. *)
Definition list_data (note_names : list string) (s : node) : json :=
  JObj [ ("user", JStr USER_ID);
         ("timestamp", JStr get_iso_timestamp);
         ("chimes",
           JArr [ JObj [ ("id", JStr (chime_id s));
                         ("name", JStr "MicroPython Chime");
                         ("description", JStr "Hardware chime node");
                         ("created_at", JStr get_iso_timestamp);
                         ("notes", JArr (map JStr note_names));
                         ("chords", JArr (map JStr CHORDS)) ] ]) ].

(** [publish_chime_info].  Here a publish call that fails does matter: it
    leaves the [try] at once, so the calls after it are not made.  [ok_list],
    [ok_notes] and [ok_chords] tell whether each of the three calls went
    through; the error that [publish_status] may raise on its own (the lookup
    of the mode name) is caught by the same [try]. *)
Definition publish_chime_info (note_names : list string)
           (ok_list ok_notes ok_chords : bool) : M unit :=
  try_except
    (s <- get ;;
     emit (Publish list_topic (dumps (list_data note_names s)) true) ;;
     if ok_list then
       emit (Publish (notes_topic s) (dumps (JArr (map JStr note_names))) true) ;;
       if ok_notes then
         emit (Publish (chords_topic s) (dumps (JArr (map JStr CHORDS))) true) ;;
         if ok_chords then publish_status else ret tt
       else ret tt
     else ret tt)
    (fun _ => ret tt).

End NodeRest.

(** What a [for] loop draws from a value, when it can. *)
Definition iterated (v : json) : option (list json) :=
  match v with
  | JArr items => Some items
  | JStr s => Some (chars s)
  | JObj members => Some (map (fun kv => JStr (fst kv)) members)
  | _ => None
  end.

(** What one element of explicit notes sends to the buzzer: a note of the
    table sounds for 300 ms, anything else is passed over. *)
Definition item_trace (note : json) : list event :=
  match note with
  | JStr name =>
      match assoc name NOTE_FREQUENCIES with
      | Some hz => note_trace hz 300
      | None => []
      end
  | _ => []
  end.

(** The default chime as the buzzer sees it. *)
Definition default_trace : list event :=
  note_trace 262 300 ++ note_trace 330 300 ++ note_trace 392 300
  ++ note_trace 523 500.

(** The duty the buzzer is left with by a trace, if the trace sets one. *)
Fixpoint final_duty (t : list event) : option Z :=
  match t with
  | [] => None
  | ev :: rest =>
      match final_duty rest with
      | Some d => Some d
      | None => match ev with BuzzerDuty d => Some d | _ => None end
      end
  end.

(** The time a trace spends in [sleep_ms], in milliseconds. *)
Fixpoint slept (t : list event) : Z :=
  match t with
  | [] => 0
  | SleepMs ms :: rest => ms + slept rest
  | _ :: rest => slept rest
  end.

(** The calls playback may make: a frequency of the table, duty 0 or 512,
    a pause of 50, 300 or 500 ms. *)
Definition playback_event (ev : event) : Prop :=
  match ev with
  | BuzzerFreq hz => In hz (map snd NOTE_FREQUENCIES)
  | BuzzerDuty d => d = 0 \/ d = 512
  | SleepMs ms => ms = 50 \/ ms = 300 \/ ms = 500
  | _ => False
  end.

(** The names of a list that are notes of the table. *)
Definition known_notes (names : list string) : list string :=
  filter (fun name => match assoc name NOTE_FREQUENCIES with
                      | Some _ => true
                      | None => false
                      end) names.

(** The responses among the messages of a trace: they are the ones published
    without the retain flag. *)
Definition responses (t : list event) : list (string * string * bool) :=
  filter (fun m => negb (snd m)) (published t).

(** One if a chime is pending, zero otherwise. *)
Definition pending_count (s : node) : nat :=
  if truthy (pending_chime_id s) then 1%nat else 0%nat.

(** The number of packets among a sequence of entry points. *)
Definition packets (ops : list op) : nat :=
  List.length (filter (fun o => match o with OpMessage _ _ _ => true | _ => false end)
                      ops).

(** The fields the status LED handler works on. *)
Definition without_led (s : node) : node :=
  set_last_led_toggle 0 (set_led_state false s).

Section Messages.
Context {P : Platform}.

(** The two kinds of message the running node sends, written out: a
    "Positive" response on its response topic, not retained, or a status
    naming a mode on its status topic, retained. *)
Definition own_message (s : node) (m : string * string * bool) : Prop :=
  (fst (fst m) = ("/micropython_user/chime/" ++ chime_id s ++ "/response")%string /\
   snd m = false /\
   exists X,
     snd (fst m)
     = dumps (JObj [ ("timestamp", JStr "2025-01-01T00:00:00Z");
                     ("response", JStr "Positive");
                     ("node_id", JStr (node_id s));
                     ("original_chime_id", X) ])) \/
  (fst (fst m) = ("/micropython_user/chime/" ++ chime_id s ++ "/status")%string /\
   snd m = true /\
   exists name,
     In name ["DoNotDisturb"; "Available"; "ChillGrinding"; "Grinding"] /\
     snd (fst m)
     = dumps (JObj [ ("chime_id", JStr (chime_id s));
                     ("online", JBool true);
                     ("last_seen", JStr "2025-01-01T00:00:00Z");
                     ("node_id", JStr (node_id s));
                     ("mode", JStr name) ])).

(** An iteration of the main loop whose packet, if there is one, decodes. *)
Definition decodable (i : tick) : Prop :=
  match incoming i with
  | Some (topic, msg) => decode topic <> None /\ decode msg <> None
  | None => True
  end.

End Messages.

(** The identifiers of the node. *)
Definition ids (s : node) : string * string := (node_id s, chime_id s).

(** ** A stand-in platform, to run the model on examples

    Its [loads] knows the handful of request texts below, its [dumps] is a
    plain structural printer, its [ticks_diff] is subtraction without
    wrap-around.  The theorems hold for every platform; this one only serves
    to evaluate the node on concrete inputs. *)

Module Demo.

(** The double-quote character. *)
Definition dq : string := String "034"%char EmptyString.

Definition quoted (s : string) : string := (dq ++ s ++ dq)%string.

Definition field (key value : string) : string :=
  (quoted key ++ ": " ++ value)%string.

(** [{"chime_id": "X", "user": "u"}] *)
Definition ring_X : string :=
  ("{" ++ field "chime_id" (quoted "X") ++ ", "
       ++ field "user" (quoted "u") ++ "}")%string.

(** [{"chime_id": "Y", "user": "u"}] *)
Definition ring_Y : string :=
  ("{" ++ field "chime_id" (quoted "Y") ++ ", "
       ++ field "user" (quoted "u") ++ "}")%string.

(** [{"chime_id": "", "user": "u"}] *)
Definition ring_empty_id : string :=
  ("{" ++ field "chime_id" (quoted "") ++ ", "
       ++ field "user" (quoted "u") ++ "}")%string.

(** [{"chime_id": "X", "user": "u", "notes": 5}] *)
Definition ring_notes_number : string :=
  ("{" ++ field "chime_id" (quoted "X") ++ ", "
       ++ field "user" (quoted "u") ++ ", "
       ++ field "notes" "5" ++ "}")%string.

(** [{"user": "u"}] *)
Definition ring_no_id : string :=
  ("{" ++ field "user" (quoted "u") ++ "}")%string.

Definition known_texts : list (string * json) :=
  [ (ring_X, JObj [("chime_id", JStr "X"); ("user", JStr "u")]);
    (ring_Y, JObj [("chime_id", JStr "Y"); ("user", JStr "u")]);
    (ring_empty_id, JObj [("chime_id", JStr ""); ("user", JStr "u")]);
    (ring_notes_number,
      JObj [("chime_id", JStr "X"); ("user", JStr "u"); ("notes", JInt 5)]);
    (ring_no_id, JObj [("user", JStr "u")]) ].

Definition demo_loads (text : string) : option json := assoc text known_texts.

Definition join (parts : list string) : string :=
  match parts with
  | [] => ""
  | first :: rest =>
      fold_left (fun acc part => (acc ++ ", " ++ part)%string) rest first
  end.

Definition show_Z (z : Z) : string :=
  match z with
  | Z0 => "0"
  | Zpos p => NilZero.string_of_uint (Pos.to_uint p)
  | Zneg p => ("-" ++ NilZero.string_of_uint (Pos.to_uint p))%string
  end.

Fixpoint demo_dumps (v : json) : string :=
  match v with
  | JNull => "null"
  | JBool true => "true"
  | JBool false => "false"
  | JInt z => show_Z z
  | JFloat q => (show_Z (Qnum q) ++ "/" ++ show_Z (Zpos (Qden q)))%string
  | JStr s => quoted s
  | JArr items => ("[" ++ join (map demo_dumps items) ++ "]")%string
  | JObj members =>
      ("{" ++ join (map (fun kv => field (fst kv) (demo_dumps (snd kv)))
                        members) ++ "}")%string
  end.

Definition platform : Platform :=
  {| mac_hex := "a1b2c3d4e5f6";
     loads := demo_loads;
     dumps := demo_dumps;
     decode := fun bytes => Some bytes;
     ticks_diff := fun a b => a - b |}.

(** The node right after start-up. *)
Definition start : node := init_node (P := platform).

(** The ring topic the node subscribes to on this platform. *)
Definition ring_topic : string :=
  ("/" ++ USER_ID ++ "/chime/" ++ chime_id start ++ "/ring")%string.

(** The node switched from Available to ChillGrinding by a press of the
    button at tick 1000. *)
Definition chill_node : node :=
  node_of (do_op (P := platform) (OpButton 0 1000) start).

(** The same node once the button has been released, at tick 1200. *)
Definition released_node : node :=
  node_of (do_op (P := platform) (OpButton 1 1200) chill_node).

(** That node after the ring request for chime X, received at tick 5000. *)
Definition pending_node : node :=
  node_of (do_op (P := platform) (OpMessage ring_topic ring_X 5000)
                 released_node).

(** An idle iteration of the main loop whose clock reads [t] throughout. *)
Definition idle_tick (t : Z) : tick :=
  {| incoming := None; t_msg := t; pin := 1; t_button := t; t_led := t;
     t_poll := t |}.

End Demo.

(** * Properties *)

(** ** Laws of the monad: what a computation leaves untouched *)

Lemma published_app (t1 t2 : list event) :
  published (t1 ++ t2) = published t1 ++ published t2.
Proof.
  induction t1 as [| ev t1 IH]; simpl; [reflexivity |].
  destruct ev; simpl; rewrite IH; reflexivity.
Qed.


Section Laws.
Context {A B X : Type} (f : node -> X).

Lemma preserves_ret (a : A) : preserves f (ret a).
Proof. intro s; reflexivity. Qed.

Lemma preserves_raise (e : exn) : preserves f (raise (A := A) e).
Proof. intro s; reflexivity. Qed.

Lemma preserves_get : preserves f get.
Proof. intro s; reflexivity. Qed.

Lemma preserves_emit (ev : event) : preserves f (emit ev).
Proof. intro s; reflexivity. Qed.

Lemma preserves_modify (g : node -> node) :
  (forall s, f (g s) = f s) -> preserves f (modify g).
Proof. intros H s; apply H. Qed.

Lemma preserves_bind (m : M A) (k : A -> M B) :
  preserves f m -> (forall a, preserves f (k a)) -> preserves f (bind m k).
Proof.
  intros Hm Hk s. unfold bind, node_of.
  specialize (Hm s). unfold node_of in Hm.
  destruct (m s) as [[[a | e] s1] t1]; simpl in *; [| exact Hm].
  specialize (Hk a s1). unfold node_of in Hk.
  destruct (k a s1) as [[r s2] t2]; simpl in *. congruence.
Qed.

Lemma preserves_try_except (m : M A) (h : exn -> M A) :
  preserves f m -> (forall e, preserves f (h e)) -> preserves f (try_except m h).
Proof.
  intros Hm Hh s. unfold try_except, node_of.
  specialize (Hm s). unfold node_of in Hm.
  destruct (m s) as [[[a | e] s1] t1]; simpl in *; [exact Hm |].
  specialize (Hh e s1). unfold node_of in Hh.
  destruct (h e s1) as [[r s2] t2]; simpl in *. congruence.
Qed.

Lemma mute_ret (a : A) : mute (ret a).
Proof. intro s; reflexivity. Qed.

Lemma mute_raise (e : exn) : mute (raise (A := A) e).
Proof. intro s; reflexivity. Qed.

Lemma mute_get : mute get.
Proof. intro s; reflexivity. Qed.

Lemma mute_modify (g : node -> node) : mute (modify g).
Proof. intro s; reflexivity. Qed.

Lemma mute_bind (m : M A) (k : A -> M B) :
  mute m -> (forall a, mute (k a)) -> mute (bind m k).
Proof.
  intros Hm Hk s. unfold bind, trace_of.
  specialize (Hm s). unfold trace_of in Hm.
  destruct (m s) as [[[a | e] s1] t1]; simpl in *; [| exact Hm].
  specialize (Hk a s1). unfold trace_of in Hk.
  destruct (k a s1) as [[r s2] t2]; simpl in *.
  rewrite published_app, Hm, Hk. reflexivity.
Qed.

Lemma mute_try_except (m : M A) (h : exn -> M A) :
  mute m -> (forall e, mute (h e)) -> mute (try_except m h).
Proof.
  intros Hm Hh s. unfold try_except, trace_of.
  specialize (Hm s). unfold trace_of in Hm.
  destruct (m s) as [[[a | e] s1] t1]; simpl in *; [exact Hm |].
  specialize (Hh e s1). unfold trace_of in Hh.
  destruct (h e s1) as [[r s2] t2]; simpl in *.
  rewrite published_app, Hm, Hh. reflexivity.
Qed.
End Laws.

Lemma preserves_for_each {A X : Type} (f : node -> X) (items : list A)
      (body : A -> M unit) :
  (forall x, preserves f (body x)) -> preserves f (for_each items body).
Proof.
  intro H. induction items as [| x rest IH]; simpl.
  - apply preserves_ret.
  - apply preserves_bind; [apply H | intros _; exact IH].
Qed.

Lemma mute_for_each {A : Type} (items : list A) (body : A -> M unit) :
  (forall x, mute (body x)) -> mute (for_each items body).
Proof.
  intro H. induction items as [| x rest IH]; simpl.
  - apply mute_ret.
  - apply mute_bind; [apply H | intros _; exact IH].
Qed.

Lemma preserves_py_getitem {X : Type} (f : node -> X) d key :
  preserves f (py_getitem d key).
Proof.
  destruct d; simpl; try apply preserves_raise.
  destruct (assoc key members); [apply preserves_ret | apply preserves_raise].
Qed.

Lemma preserves_py_get {X : Type} (f : node -> X) d key default :
  preserves f (py_get d key default).
Proof.
  destruct d; simpl; try apply preserves_raise.
  destruct (assoc key members); apply preserves_ret.
Qed.

Lemma preserves_py_iter {X : Type} (f : node -> X) v : preserves f (py_iter v).
Proof. destruct v; simpl; first [apply preserves_ret | apply preserves_raise]. Qed.

Lemma preserves_note_frequency {X : Type} (f : node -> X) note :
  preserves f (note_frequency note).
Proof. destruct note; simpl; first [apply preserves_ret | apply preserves_raise]. Qed.

Lemma preserves_py_index {A X : Type} (f : node -> X) (l : list A) i :
  preserves f (py_index l i).
Proof.
  unfold py_index.
  destruct (_ && _); [| apply preserves_raise].
  destruct (nth_error _ _); [apply preserves_ret | apply preserves_raise].
Qed.

Lemma mute_py_getitem d key : mute (py_getitem d key).
Proof.
  destruct d; simpl; try apply mute_raise.
  destruct (assoc key members); [apply mute_ret | apply mute_raise].
Qed.

Lemma mute_py_get d key default : mute (py_get d key default).
Proof.
  destruct d; simpl; try apply mute_raise.
  destruct (assoc key members); apply mute_ret.
Qed.

Lemma mute_py_iter v : mute (py_iter v).
Proof. destruct v; simpl; first [apply mute_ret | apply mute_raise]. Qed.

Lemma mute_note_frequency note : mute (note_frequency note).
Proof. destruct note; simpl; first [apply mute_ret | apply mute_raise]. Qed.

Lemma mute_py_index {A : Type} (l : list A) i : mute (py_index l i).
Proof.
  unfold py_index.
  destruct (_ && _); [| apply mute_raise].
  destruct (nth_error _ _); [apply mute_ret | apply mute_raise].
Qed.

Create HintDb frame discriminated.

#[export] Hint Resolve preserves_ret preserves_raise preserves_get preserves_emit
  preserves_py_getitem preserves_py_get preserves_py_iter
  preserves_note_frequency preserves_py_index : frame.
#[export] Hint Resolve mute_ret mute_raise mute_get mute_modify
  mute_py_getitem mute_py_get mute_py_iter mute_note_frequency
  mute_py_index : frame.

(** Split a goal [preserves f m] or [mute m] along the structure of [m]. *)
Ltac frame_step :=
  match goal with
  | |- preserves _ (bind _ _) => apply preserves_bind; [| intro]
  | |- preserves _ (try_except _ _) => apply preserves_try_except; [| intro]
  | |- preserves _ (for_each _ _) => apply preserves_for_each; intro
  | |- preserves _ (modify _) => apply preserves_modify; intro; reflexivity
  | |- mute (bind _ _) => apply mute_bind; [| intro]
  | |- mute (try_except _ _) => apply mute_try_except; [| intro]
  | |- mute (for_each _ _) => apply mute_for_each; intro
  | |- mute (emit ?ev) => intro; reflexivity
  | |- preserves _ (if ?b then _ else _) => destruct b
  | |- mute (if ?b then _ else _) => destruct b
  | |- preserves _ (match ?x with _ => _ end) => destruct x
  | |- mute (match ?x with _ => _ end) => destruct x
  | |- _ => solve [auto with frame]
  end.
Ltac frame := repeat frame_step.

Section Frames.
Context {P : Platform} {X : Type} (f : node -> X).

(** Chime playback, responses and status leave the node as it is. *)

Lemma preserves_play_chime notes chords : preserves f (play_chime notes chords).
Proof. unfold play_chime, play_note. frame. Qed.

Lemma mute_play_chime notes chords : mute (play_chime notes chords).
Proof. unfold play_chime, play_note. frame. Qed.

Lemma preserves_send_response response_type original_chime_id :
  preserves f (send_response response_type original_chime_id).
Proof. intro s. reflexivity. Qed.

Lemma preserves_publish_status : preserves f publish_status.
Proof. unfold publish_status. frame. Qed.
End Frames.

#[export] Hint Resolve preserves_play_chime mute_play_chime
  preserves_send_response preserves_publish_status : frame.

Section MessagesAndMode.
Context {P : Platform}.

Lemma gate_keeps_mode X now : preserves current_mode (gate X now).
Proof. unfold gate. frame. Qed.

Lemma handle_ring_request_keeps_mode message now :
  preserves current_mode (handle_ring_request message now).
Proof.
  unfold handle_ring_request, ring_request_body. frame.
  apply gate_keeps_mode.
Qed.

Lemma mqtt_callback_keeps_mode topic msg now :
  preserves current_mode (mqtt_callback topic msg now).
Proof.
  unfold mqtt_callback. frame. apply handle_ring_request_keeps_mode.
Qed.

Lemma handle_status_led_keeps_mode now :
  preserves current_mode (handle_status_led now).
Proof. unfold handle_status_led, blink. frame. Qed.

Lemma handle_pending_responses_keeps_mode now :
  preserves current_mode (handle_pending_responses now).
Proof. unfold handle_pending_responses. frame. Qed.

(** C8. Whatever packet arrives -- any topic, any payload, decodable or
    not, a ring request that parses or one that fails -- handing it to
    [mqtt_callback] leaves [current_mode] as it was.  The same holds for
    [check_msg], which is how the main loop receives packets, and more
    generally for every entry point of the node other than the button
    handler. *)
Theorem incoming_message_keeps_mode :
  forall (topic msg : string) (now : Z) (s : node),
    current_mode (node_of (mqtt_callback topic msg now s)) = current_mode s /\
    current_mode (node_of (check_msg (Some (topic, msg)) now s)) = current_mode s /\
    current_mode (node_of (check_msg None now s)) = current_mode s /\
    (forall o : op,
        match o with
        | OpButton _ _ => True
        | _ => current_mode (node_of (do_op o s)) = current_mode s
        end).
Proof.
  intros topic msg now s. split; [| split; [| split]].
  - apply mqtt_callback_keeps_mode.
  - simpl. apply mqtt_callback_keeps_mode.
  - reflexivity.
  - intros [topic' msg' now' | pin_value now' | now' | now' |]; simpl do_op.
    + apply mqtt_callback_keeps_mode.
    + exact I.
    + apply handle_status_led_keeps_mode.
    + apply handle_pending_responses_keeps_mode.
    + apply preserves_publish_status.
Qed.

End MessagesAndMode.

Section PendingPoll.
Context {P : Platform}.

(** C10. With no pending chime ([pending_chime_id] is the empty string),
    [handle_pending_responses] returns without publishing anything and
    without touching the node, whatever the clock reads and whatever the
    deadline field holds. *)
Theorem poll_without_pending_is_noop :
  forall (s : node) (now : Z),
    pending_chime_id s = JStr "" ->
    handle_pending_responses now s = (Return tt, s, []).
Proof.
  intros s now H. unfold handle_pending_responses, bind, get.
  rewrite H. reflexivity.
Qed.

End PendingPoll.

Lemma poll_without_pending_is_noop_witness :
  handle_pending_responses (P := Demo.platform) 123456 Demo.start
  = (Return tt, Demo.start, []).
Proof.
  apply (poll_without_pending_is_noop (P := Demo.platform) Demo.start 123456).
  reflexivity.
Defined.

Section Button.
Context {P : Platform}.

Lemma mode_names_index (names : list string) (i : Z) :
  List.length names = 4%nat -> 0 <= i < 4 ->
  exists name, py_index names i = ret name.
Proof.
  intros Hlen Hi.
  destruct names as [| n0 [| n1 [| n2 [| n3 [| n4 rest]]]]]; try discriminate.
  assert (Hcases : i = 0 \/ i = 1 \/ i = 2 \/ i = 3) by lia.
  destruct Hcases as [-> | [-> | [-> | ->]]]; eexists; reflexivity.
Qed.

Lemma publish_status_run (s : node) :
  0 <= current_mode s < 4 ->
  exists name,
    publish_status s =
    (Return tt, s, [Publish (status_topic s) (dumps (status_data s name)) true]).
Proof.
  intro Hm.
  destruct (mode_names_index status_mode_names (current_mode s) eq_refl Hm)
    as [name Hname].
  exists name. unfold publish_status, bind, get. rewrite Hname. reflexivity.
Qed.


Lemma press_answers_run (s : node) (pin_value now : Z) :
  qualifying_press s pin_value now = true ->
  truthy (pending_chime_id s) = true ->
  handle_button pin_value now s =
  (Return tt, answered now s,
   [Publish (response_topic s)
            (dumps (response_data s "Positive" (pending_chime_id s))) false]).
Proof.
  intros Hq Ht. unfold handle_button, bind, get.
  rewrite Hq, Ht. reflexivity.
Qed.

Lemma press_advances_run (s : node) (pin_value now : Z) :
  qualifying_press s pin_value now = true ->
  truthy (pending_chime_id s) = false ->
  exists name,
    handle_button pin_value now s =
    (Return tt, advanced now s,
     [Publish (status_topic s)
              (dumps (status_data (advanced now s) name)) true]).
Proof.
  intros Hq Ht.
  assert (Hm : 0 <= current_mode (advanced now s) < 4)
    by (simpl; apply Z.mod_pos_bound; lia).
  destruct (mode_names_index button_mode_names _ eq_refl Hm) as [upper Hupper].
  destruct (publish_status_run _ Hm) as [name Hname].
  exists name. unfold handle_button, bind, get.
  rewrite Hq, Ht. unfold modify at 1 2 3. cbv beta iota. unfold get.
  cbv beta iota. fold (advanced now s). rewrite Hupper. unfold ret at 1.
  cbv beta iota. rewrite Hname. reflexivity.
Qed.

Lemma release_run (s : node) (pin_value now : Z) :
  pin_value <> 0 ->
  handle_button pin_value now s =
  (Return tt, if button_pressed s then set_button_pressed false s else s, []).
Proof.
  intro Hpin. unfold handle_button, qualifying_press, bind, get.
  destruct (Z.eqb_spec pin_value 0) as [E | _]; [contradiction |].
  simpl. destruct (button_pressed s); reflexivity.
Qed.

End Button.

Section Runs.
Context {A B : Type}.

Lemma bind_run (m : M A) (k : A -> M B) (s s1 : node) (a : A) (t1 : list event) :
  m s = (Return a, s1, t1) ->
  bind m k s = (result_of (k a s1), node_of (k a s1), t1 ++ trace_of (k a s1)).
Proof.
  intro H. unfold bind. rewrite H.
  destruct (k a s1) as [[r s2] t2]. reflexivity.
Qed.

Lemma bind_ret_l (a : A) (k : A -> M B) (s : node) : bind (ret a) k s = k a s.
Proof. unfold bind, ret. destruct (k a s) as [[r s2] t2]. reflexivity. Qed.

Lemma bind_ext (m : M A) (k k' : A -> M B) (s : node) :
  (forall a s1, k a s1 = k' a s1) -> bind m k s = bind m k' s.
Proof.
  intro H. unfold bind. destruct (m s) as [[[a | e] s1] t1]; [| reflexivity].
  rewrite H. reflexivity.
Qed.
End Runs.

Section ButtonTheorems.
Context {P : Platform}.

(** C6. A qualifying press while a chime is pending makes exactly one
    call to the outside: it publishes, on the node's response topic and not
    retained, a message whose payload carries the kind "Positive", the node's
    id and the pending chime_id as [original_chime_id].  It empties
    [pending_chime_id], resets the deadline to 0 and leaves [current_mode]
    alone. *)
Theorem button_answers_pending_chime :
  forall (s : node) (pin_value now : Z),
    qualifying_press s pin_value now = true ->
    truthy (pending_chime_id s) = true ->
    let r := handle_button pin_value now s in
    result_of r = Return tt /\
    trace_of r =
      [Publish ("/micropython_user/chime/" ++ chime_id s ++ "/response")%string
         (dumps (JObj [ ("timestamp", JStr "2025-01-01T00:00:00Z");
                        ("response", JStr "Positive");
                        ("node_id", JStr (node_id s));
                        ("original_chime_id", pending_chime_id s) ]))
         false] /\
    pending_chime_id (node_of r) = JStr "" /\
    chime_response_deadline (node_of r) = 0 /\
    current_mode (node_of r) = current_mode s.
Proof.
  intros s pin_value now Hq Ht r. subst r.
  rewrite (press_answers_run s pin_value now Hq Ht). repeat split.
Qed.

Lemma qualifying_after_release (s : node) (now t : Z) :
  ticks_diff t now > 500 ->
  qualifying_press (set_button_pressed false (advanced now s)) 0 t = true.
Proof.
  intro H. unfold qualifying_press. simpl. apply Z.gtb_gt. exact H.
Qed.

(** One press that advances the mode, then the release of the button. *)
Lemma advance_then_release (s : node) (now u : Z) (k : M unit) :
  qualifying_press s 0 now = true ->
  truthy (pending_chime_id s) = false ->
  node_of ((handle_button 0 now ;; handle_button 1 u ;; k) s) =
  node_of (k (set_button_pressed false (advanced now s))).
Proof.
  intros Hq Ht.
  destruct (press_advances_run s 0 now Hq Ht) as [name Hpress].
  rewrite (bind_run _ _ _ _ _ _ Hpress). unfold node_of at 1. simpl fst. simpl snd.
  assert (Hrel : handle_button 1 u (advanced now s) =
                 (Return tt, set_button_pressed false (advanced now s), []))
    by (rewrite release_run by discriminate; reflexivity).
  rewrite (bind_run _ _ _ _ _ _ Hrel). reflexivity.
Qed.

Lemma four_steps_mod_4 (m : Z) :
  0 <= m < 4 -> ((((m + 1) mod 4 + 1) mod 4 + 1) mod 4 + 1) mod 4 = m.
Proof.
  intro H. assert (Hc : m = 0 \/ m = 1 \/ m = 2 \/ m = 3) by lia.
  destruct Hc as [-> | [-> | [-> | ->]]]; reflexivity.
Qed.

(** C5. A qualifying press with nothing pending moves [current_mode] from
    M to (M + 1) mod 4, that is DoNotDisturb -> Available -> ChillGrinding
    -> Grinding -> DoNotDisturb; and four such presses in a row (the button
    released in between, each press more than 500 ms of [ticks_diff] after
    the one before) bring the mode of a node back to where it started. *)
Theorem button_press_cycles_mode :
  forall (s : node) (pin_value now : Z),
    qualifying_press s pin_value now = true ->
    truthy (pending_chime_id s) = false ->
    let s1 := node_of (handle_button pin_value now s) in
    result_of (handle_button pin_value now s) = Return tt /\
    current_mode s1 = (current_mode s + 1) mod 4 /\
    (current_mode s = DO_NOT_DISTURB -> current_mode s1 = AVAILABLE) /\
    (current_mode s = AVAILABLE -> current_mode s1 = CHILL_GRINDING) /\
    (current_mode s = CHILL_GRINDING -> current_mode s1 = GRINDING) /\
    (current_mode s = GRINDING -> current_mode s1 = DO_NOT_DISTURB) /\
    (forall u1 t2 u2 t3 u3 t4 : Z,
        0 <= current_mode s < 4 ->
        ticks_diff t2 now > 500 ->
        ticks_diff t3 t2 > 500 ->
        ticks_diff t4 t3 > 500 ->
        current_mode
          (node_of ((handle_button 1 u1 ;;
                     handle_button 0 t2 ;; handle_button 1 u2 ;;
                     handle_button 0 t3 ;; handle_button 1 u3 ;;
                     handle_button 0 t4) s1))
        = current_mode s).
Proof.
  intros s pin_value now Hq Ht s1. subst s1.
  destruct (press_advances_run s pin_value now Hq Ht) as [name Hpress].
  rewrite Hpress. unfold result_of, node_of at 1 2 3 4 5. simpl fst. simpl snd.
  split; [reflexivity |].
  split; [reflexivity |].
  split; [intro E; simpl; rewrite E; reflexivity |].
  split; [intro E; simpl; rewrite E; reflexivity |].
  split; [intro E; simpl; rewrite E; reflexivity |].
  split; [intro E; simpl; rewrite E; reflexivity |].
  intros u1 t2 u2 t3 u3 t4 Hm H2 H3 H4.
  unfold node_of at 2. simpl fst. simpl snd.
  assert (Hrel : handle_button 1 u1 (advanced now s) =
                 (Return tt, set_button_pressed false (advanced now s), []))
    by (rewrite release_run by discriminate; reflexivity).
  rewrite (bind_run _ _ _ _ _ _ Hrel). unfold node_of at 1. simpl fst. simpl snd.
  rewrite advance_then_release
    by (try apply qualifying_after_release; assumption).
  rewrite advance_then_release
    by (try apply qualifying_after_release; assumption).
  match goal with
  | |- context [handle_button 0 t4 (set_button_pressed false (advanced t3 ?st))] =>
      destruct (press_advances_run _ 0 t4 (qualifying_after_release st t3 t4 H4) Ht)
        as [name4 Hpress4]
  end.
  rewrite Hpress4. simpl.
  apply four_steps_mod_4. exact Hm.
Qed.

End ButtonTheorems.


Section Playback.
Context {P : Platform}.

Lemma explicit_notes_run (names : list string) (s : node) :
  for_each (map JStr names)
    (fun note =>
       frequency <- note_frequency note ;;
       match frequency with
       | Some hz => play_note hz 300
       | None => ret tt
       end) s
  = (Return tt, s, explicit_trace names).
Proof.
  induction names as [| name rest IH]; [reflexivity |].
  simpl map. simpl for_each.
  assert (Hhead :
    (frequency <- note_frequency (JStr name) ;;
     match frequency with
     | Some hz => play_note hz 300
     | None => ret tt
     end) s
    = (Return tt, s,
       match assoc name NOTE_FREQUENCIES with
       | Some hz => note_trace hz 300
       | None => []
       end)).
  { unfold note_frequency, bind, ret.
    destruct (assoc name NOTE_FREQUENCIES); reflexivity. }
  rewrite (bind_run _ _ _ _ _ _ Hhead), IH. reflexivity.
Qed.

(** C7. With an empty list of notes -- or [None], or no "notes" key in the
    request, for which [data.get("notes", [])] yields the empty list --
    [play_chime] plays exactly the default pattern: C4 (262 Hz) for 300 ms,
    E4 (330 Hz) for 300 ms, G4 (392 Hz) for 300 ms, C5 (523 Hz) for 500 ms,
    in that order, each followed by the 50 ms gap.  With a non-empty list
    of note names it plays those, 300 ms each.  In both cases it returns and
    the last thing it does is set the buzzer duty to 0; more generally,
    whenever [play_chime] returns, its last call is [buzzer.duty(0)]. *)
Theorem play_chime_default_pattern_and_silence :
  forall (chords : json) (s : node),
    let default_pattern :=
      [ BuzzerFreq 262; BuzzerDuty 512; SleepMs 300; BuzzerDuty 0; SleepMs 50;
        BuzzerFreq 330; BuzzerDuty 512; SleepMs 300; BuzzerDuty 0; SleepMs 50;
        BuzzerFreq 392; BuzzerDuty 512; SleepMs 300; BuzzerDuty 0; SleepMs 50;
        BuzzerFreq 523; BuzzerDuty 512; SleepMs 500; BuzzerDuty 0; SleepMs 50 ] in
    play_chime (JArr []) chords s
      = (Return tt, s, default_pattern ++ [BuzzerDuty 0]) /\
    play_chime JNull chords s
      = (Return tt, s, default_pattern ++ [BuzzerDuty 0]) /\
    (forall members : list (string * json),
        assoc "notes" members = None ->
        (notes <- py_get (JObj members) "notes" (JArr []) ;;
         play_chime notes chords) s
        = (Return tt, s, default_pattern ++ [BuzzerDuty 0])) /\
    (forall (name : string) (names : list string),
        play_chime (JArr (map JStr (name :: names))) chords s
        = (Return tt, s, explicit_trace (name :: names) ++ [BuzzerDuty 0])) /\
    (forall notes : json,
        result_of (play_chime notes chords s) = Return tt ->
        exists t, trace_of (play_chime notes chords s) = t ++ [BuzzerDuty 0]).
Proof.
  intros chords s default_pattern.
  split; [reflexivity |].
  split; [reflexivity |].
  split.
  { intros members Habsent. unfold py_get, bind. rewrite Habsent. reflexivity. }
  split.
  { intros name names. unfold play_chime.
    change (truthy (JArr (map JStr (name :: names)))) with true.
    cbv iota. unfold py_iter.
    assert (Hloop :
      (items <- ret (map JStr (name :: names)) ;;
       for_each items
         (fun note =>
            frequency <- note_frequency note ;;
            match frequency with
            | Some hz => play_note hz 300
            | None => ret tt
            end)) s
      = (Return tt, s, explicit_trace (name :: names))).
    { unfold bind at 1. unfold ret at 1. cbv beta iota.
      rewrite explicit_notes_run. reflexivity. }
    rewrite (bind_run _ _ _ _ _ _ Hloop). reflexivity. }
  intros notes Hret. unfold play_chime in *.
  set (body := if truthy notes then _ else _) in *.
  unfold bind, result_of, trace_of in *.
  destruct (body s) as [[[[] | e] s1] t1]; simpl in *.
  - exists t1. reflexivity.
  - discriminate.
Qed.

End Playback.

(** [play_chime] returns on the list of notes C4, H9 (not a note of the
    table), E4, and its last call is [buzzer.duty(0)]. *)
Lemma play_chime_default_pattern_and_silence_witness :
  exists t,
    trace_of (play_chime (JArr [JStr "C4"; JStr "H9"; JStr "E4"]) (JArr [])
                         Demo.start)
    = t ++ [BuzzerDuty 0].
Proof.
  apply (proj2 (proj2 (proj2 (proj2
    (play_chime_default_pattern_and_silence (JArr []) Demo.start))))).
  reflexivity.
Defined.


Section RingRequest.
Context {P : Platform}.

Lemma gate_run (X : json) (now : Z) (s : node) :
  gate X now s =
  if current_mode s =? DO_NOT_DISTURB then (Return (mkGating false false ""), s, [])
  else if current_mode s =? AVAILABLE then (Return (mkGating true false ""), s, [])
  else if current_mode s =? CHILL_GRINDING then
         (Return (mkGating true false ""), deferred X now s, [])
  else if current_mode s =? GRINDING then
         (Return (mkGating true true "Positive"), s, [])
  else (Return (mkGating false false ""), s, []).
Proof.
  unfold gate, bind, get.
  repeat (destruct (_ =? _); [reflexivity |]). reflexivity.
Qed.

(** Once the text has parsed to a dict with both required keys, the body
    of the handler is the gate followed by playback and response. *)
Lemma ring_request_body_parsed (message : string) (now : Z) (s : node)
      (members : list (string * json)) (X u : json) :
  loads message = Some (JObj members) ->
  assoc "chime_id" members = Some X ->
  assoc "user" members = Some u ->
  ring_request_body message now s =
  (g <- gate X now ;;
   if should_chime g then
     play_chime (request_notes members) (request_chords members) ;;
     if should_auto_respond g then send_response (auto_response_type g) X
     else ret tt
   else ret tt) s.
Proof.
  intros Hl Hx Hu. unfold ring_request_body. rewrite Hl.
  rewrite bind_ret_l. unfold py_getitem. rewrite Hx, Hu.
  rewrite !bind_ret_l. apply bind_ext. intros g s1.
  destruct (should_chime g); [| reflexivity].
  unfold py_get, request_notes, request_chords.
  destruct (assoc "notes" members), (assoc "chords" members);
    rewrite !bind_ret_l; reflexivity.
Qed.

End RingRequest.

Section RingRequestRuns.
Context {P : Platform}.


(** The handler returns whatever its body did, and never raises. *)
Lemma handle_ring_request_run (message : string) (now : Z) (s : node) :
  handle_ring_request message now s =
  (Return tt, node_of (ring_request_body message now s),
   trace_of (ring_request_body message now s)).
Proof.
  unfold handle_ring_request, try_except.
  destruct (ring_request_body message now s) as [[[[] | e] s1] t1]; simpl.
  - reflexivity.
  - rewrite app_nil_r. reflexivity.
Qed.

(** Playback followed by the optional immediate response. *)
Lemma chime_then_respond_run (g : gating) (X notes chords : json) (s : node) :
  (play_chime notes chords ;;
   if should_auto_respond g then send_response (auto_response_type g) X
   else ret tt) s
  = (result_of (play_chime notes chords s), s,
     trace_of (play_chime notes chords s) ++
     match result_of (play_chime notes chords s) with
     | Return _ =>
         if should_auto_respond g then
           [Publish (response_topic s)
                    (dumps (response_data s (auto_response_type g) X)) false]
         else []
     | Raise _ => []
     end).
Proof.
  pose proof (preserves_play_chime (fun s => s) notes chords s) as Hsame.
  unfold bind, node_of, result_of, trace_of in *.
  destruct (play_chime notes chords s) as [[[[] | e] s1] t1]; simpl in *; subst s1.
  - destruct (should_auto_respond g); reflexivity.
  - rewrite app_nil_r. reflexivity.
Qed.

(** A text without the required fields makes the body raise at once. *)
Lemma ring_request_body_rejected (message : string) (now : Z) (s : node) :
  request_fields message = None ->
  exists e, ring_request_body message now s = (Raise e, s, []).
Proof.
  unfold request_fields, ring_request_body. intro H.
  destruct (loads message) as [data |]; [| eexists; reflexivity].
  rewrite bind_ret_l.
  destruct data; try (eexists; reflexivity).
  unfold py_getitem.
  destruct (assoc "chime_id" members) as [X |]; [| eexists; reflexivity].
  rewrite bind_ret_l.
  destruct (assoc "user" members) as [u |]; [discriminate |].
  eexists; reflexivity.
Qed.

Lemma request_fields_parsed (message : string) (X u : json) :
  request_fields message = Some (X, u) ->
  exists members,
    loads message = Some (JObj members) /\
    assoc "chime_id" members = Some X /\
    assoc "user" members = Some u.
Proof.
  unfold request_fields. intro H.
  destruct (loads message) as [[| | | | | | members] |]; try discriminate.
  exists members.
  destruct (assoc "chime_id" members), (assoc "user" members);
    try discriminate.
  inversion H; subst. auto.
Qed.

(** The body on a parsed request, mode by mode. *)
Lemma ring_request_body_by_mode (message : string) (now : Z) (s : node)
      (members : list (string * json)) (X u : json) :
  loads message = Some (JObj members) ->
  assoc "chime_id" members = Some X ->
  assoc "user" members = Some u ->
  let notes := request_notes members in
  let chords := request_chords members in
  ring_request_body message now s =
  if current_mode s =? DO_NOT_DISTURB then (Return tt, s, [])
  else if current_mode s =? AVAILABLE then
    (result_of (play_chime notes chords s), s,
     trace_of (play_chime notes chords s))
  else if current_mode s =? CHILL_GRINDING then
    (result_of (play_chime notes chords (deferred X now s)), deferred X now s,
     trace_of (play_chime notes chords (deferred X now s)))
  else if current_mode s =? GRINDING then
    (result_of (play_chime notes chords s), s,
     trace_of (play_chime notes chords s) ++
     match result_of (play_chime notes chords s) with
     | Return _ =>
         [Publish (response_topic s) (dumps (response_data s "Positive" X)) false]
     | Raise _ => []
     end)
  else (Return tt, s, []).
Proof.
  intros Hl Hx Hu notes chords.
  rewrite (ring_request_body_parsed message now s members X u Hl Hx Hu).
  pose proof (gate_run X now s) as Hg. revert Hg.
  destruct (_ =? _).
  { intro Hg. rewrite (bind_run _ _ _ _ _ _ Hg). reflexivity. }
  repeat
    (destruct (_ =? _);
     [ intro Hg; rewrite (bind_run _ _ _ _ _ _ Hg); cbv beta;
       cbn [should_chime]; cbv iota; rewrite chime_then_respond_run;
       cbn [should_auto_respond auto_response_type];
       unfold result_of at 1, node_of at 1, trace_of at 1;
       cbn [fst snd app];
       destruct (result_of (play_chime _ _ _));
       rewrite ?app_nil_r; reflexivity | ]).
  intro Hg. rewrite (bind_run _ _ _ _ _ _ Hg). reflexivity.
Qed.

End RingRequestRuns.

Section Gating.
Context {P : Platform}.

(** C1. For a request that parsed (a dict with "chime_id" and "user"), the
    decision taken from the current mode is the table: DoNotDisturb gives
    (no chime, no auto-response); Available gives (chime, no
    auto-response); ChillGrinding gives (chime, no auto-response) and
    records the request as pending; Grinding gives (chime, auto-response,
    "Positive").  The handler acts on it accordingly: nothing at all in
    DoNotDisturb; playback and no message in Available and ChillGrinding;
    playback followed by one "Positive" response in Grinding. *)
Theorem ring_request_gating_table :
  forall (s : node) (message : string) (now : Z)
         (members : list (string * json)) (X u : json),
    loads message = Some (JObj members) ->
    assoc "chime_id" members = Some X ->
    assoc "user" members = Some u ->
    let notes := request_notes members in
    let chords := request_chords members in
    (current_mode s = DO_NOT_DISTURB ->
       result_of (gate X now s) = Return (mkGating false false "") /\
       handle_ring_request message now s = (Return tt, s, [])) /\
    (current_mode s = AVAILABLE ->
       result_of (gate X now s) = Return (mkGating true false "") /\
       handle_ring_request message now s
         = (Return tt, s, trace_of (play_chime notes chords s)) /\
       published (trace_of (handle_ring_request message now s)) = []) /\
    (current_mode s = CHILL_GRINDING ->
       result_of (gate X now s) = Return (mkGating true false "") /\
       handle_ring_request message now s
         = (Return tt, deferred X now s,
            trace_of (play_chime notes chords (deferred X now s))) /\
       published (trace_of (handle_ring_request message now s)) = []) /\
    (current_mode s = GRINDING ->
       result_of (gate X now s) = Return (mkGating true true "Positive") /\
       handle_ring_request message now s
         = (Return tt, s,
            trace_of (play_chime notes chords s) ++
            match result_of (play_chime notes chords s) with
            | Return _ =>
                [Publish (response_topic s)
                         (dumps (response_data s "Positive" X)) false]
            | Raise _ => []
            end)).
Proof.
  intros s message now members X u Hl Hx Hu notes chords.
  pose proof (ring_request_body_by_mode message now s members X u Hl Hx Hu)
    as Hbody.
  cbv zeta in Hbody. fold notes chords in Hbody.
  pose proof (gate_run X now s) as Hgate.
  rewrite !handle_ring_request_run.
  split; [| split; [| split]]; intro Hmode; rewrite Hmode in Hbody, Hgate;
    simpl in Hbody, Hgate; rewrite Hgate, Hbody; repeat split;
    apply mute_play_chime.
Qed.

End Gating.

Lemma ring_request_gating_table_witness :
  handle_ring_request (P := Demo.platform) Demo.ring_X 5000 Demo.start
  = (Return tt, Demo.start,
     trace_of (play_chime (JArr []) (JArr []) Demo.start)).
Proof.
  apply (proj1 (proj2 (proj1 (proj2
    (ring_request_gating_table (P := Demo.platform) Demo.start Demo.ring_X 5000
       [("chime_id", JStr "X"); ("user", JStr "u")] (JStr "X") (JStr "u")
       eq_refl eq_refl eq_refl)) eq_refl))).
Defined.

(** ** Playback on arbitrary values *)

Lemma explicit_loop_run (items : list json) (s : node) :
  for_each items
    (fun note =>
       frequency <- note_frequency note ;;
       match frequency with
       | Some hz => play_note hz 300
       | None => ret tt
       end) s
  = (Return tt, s, flat_map item_trace items).
Proof.
  induction items as [| x rest IH]; [reflexivity |].
  simpl for_each.
  assert (Hhead :
    (frequency <- note_frequency x ;;
     match frequency with
     | Some hz => play_note hz 300
     | None => ret tt
     end) s = (Return tt, s, item_trace x)).
  { destruct x; try reflexivity.
    unfold note_frequency, item_trace. rewrite bind_ret_l.
    destruct (assoc s0 NOTE_FREQUENCIES); reflexivity. }
  rewrite (bind_run _ _ _ _ _ _ Hhead), IH. reflexivity.
Qed.

Lemma default_loop_run (s : node) :
  for_each DEFAULT_CHIME
    (fun entry =>
       frequency <- note_frequency (JStr (fst entry)) ;;
       match frequency with
       | Some hz => play_note hz (snd entry)
       | None => ret tt
       end) s
  = (Return tt, s, default_trace).
Proof. reflexivity. Qed.

(** What [play_chime] does on any value at all. *)
Lemma play_chime_run (notes chords : json) (s : node) :
  play_chime notes chords s =
  if truthy notes then
    match iterated notes with
    | None => (Raise TypeError, s, [])
    | Some items => (Return tt, s, flat_map item_trace items ++ [BuzzerDuty 0])
    end
  else (Return tt, s, default_trace ++ [BuzzerDuty 0]).
Proof.
  unfold play_chime. destruct (truthy notes) eqn:Ht.
  - destruct (iterated notes) as [items |] eqn:Hi.
    + assert (Hiter : py_iter notes = ret items)
        by (destruct notes; try discriminate; inversion Hi; reflexivity).
      rewrite Hiter.
      assert (Hloop :
        (xs <- ret items ;;
         for_each xs
           (fun note =>
              frequency <- note_frequency note ;;
              match frequency with
              | Some hz => play_note hz 300
              | None => ret tt
              end)) s
        = (Return tt, s, flat_map item_trace items))
        by (rewrite bind_ret_l; apply explicit_loop_run).
      rewrite (bind_run _ _ _ _ _ _ Hloop). reflexivity.
    + assert (Hiter : py_iter notes = raise TypeError)
        by (destruct notes; try discriminate; reflexivity).
      rewrite Hiter. reflexivity.
  - rewrite (bind_run _ _ _ _ _ _ (default_loop_run s)). reflexivity.
Qed.


Section FailedRequests.
Context {P : Platform}.


End FailedRequests.




Section Handlers.
Context {P : Platform}.

Lemma core_fields (s1 s2 : node) :
  core s1 = core s2 ->
  node_id s1 = node_id s2 /\ chime_id s1 = chime_id s2 /\
  current_mode s1 = current_mode s2 /\
  pending_chime_id s1 = pending_chime_id s2 /\
  chime_response_deadline s1 = chime_response_deadline s2.
Proof. unfold core. intro H. inversion H. auto. Qed.

Lemma core_response (s1 s2 : node) (kind : string) (X : json) :
  core s1 = core s2 ->
  response_topic s1 = response_topic s2 /\
  response_data s1 kind X = response_data s2 kind X.
Proof.
  intro H. destruct (core_fields s1 s2 H) as (Hn & Hc & _).
  unfold response_topic, response_data. rewrite Hn, Hc. auto.
Qed.

Lemma handle_pending_responses_run (now : Z) (s : node) :
  handle_pending_responses now s =
  if truthy (pending_chime_id s) && (now >? chime_response_deadline s) then
    (Return tt, expired s,
     [Publish (response_topic s)
              (dumps (response_data s "Positive" (pending_chime_id s))) false])
  else (Return tt, s, []).
Proof.
  unfold handle_pending_responses, bind, get.
  destruct (_ && _); reflexivity.
Qed.

Lemma handle_status_led_run (now : Z) (s : node) :
  exists s' t,
    handle_status_led now s = (Return tt, s', t) /\
    published t = [] /\ core s' = core s.
Proof.
  unfold handle_status_led, blink, bind, get.
  repeat (destruct (_ =? _);
          [ destruct (_ >? _); do 2 eexists; repeat split | ]).
  do 2 eexists; repeat split.
Qed.

Lemma handle_button_returns (pin_value now : Z) (s : node) :
  result_of (handle_button pin_value now s) = Return tt.
Proof.
  destruct (qualifying_press s pin_value now) eqn:Hq.
  - destruct (truthy (pending_chime_id s)) eqn:Ht.
    + rewrite (press_answers_run s pin_value now Hq Ht). reflexivity.
    + destruct (press_advances_run s pin_value now Hq Ht) as [name Hrun].
      rewrite Hrun. reflexivity.
  - unfold handle_button, bind, get. rewrite Hq.
    destruct (_ && _); reflexivity.
Qed.

Lemma handle_button_node (pin_value now : Z) (s : node) :
  node_of (handle_button pin_value now s) =
  if qualifying_press s pin_value now then
    if truthy (pending_chime_id s) then answered now s else advanced now s
  else if negb (pin_value =? 0) && button_pressed s then
    set_button_pressed false s
  else s.
Proof.
  destruct (qualifying_press s pin_value now) eqn:Hq.
  - destruct (truthy (pending_chime_id s)) eqn:Ht.
    + rewrite (press_answers_run s pin_value now Hq Ht). reflexivity.
    + destruct (press_advances_run s pin_value now Hq Ht) as [name Hrun].
      rewrite Hrun. reflexivity.
  - unfold handle_button, bind, get. rewrite Hq.
    destruct (_ && _); reflexivity.
Qed.

Lemma handle_ring_request_node (message : string) (now : Z) (s : node) :
  node_of (handle_ring_request message now s) =
  match request_fields message with
  | Some (X, _) =>
      if current_mode s =? CHILL_GRINDING then deferred X now s else s
  | None => s
  end.
Proof.
  rewrite handle_ring_request_run. unfold node_of at 1. cbn [fst snd].
  destruct (request_fields message) as [[X u] |] eqn:Hfields.
  - destruct (request_fields_parsed message X u Hfields)
      as (members & Hl & Hx & Hu).
    rewrite (ring_request_body_by_mode message now s members X u Hl Hx Hu).
    cbv zeta.
    destruct (Z.eqb_spec (current_mode s) DO_NOT_DISTURB) as [E0 | E0].
    { rewrite E0. reflexivity. }
    destruct (Z.eqb_spec (current_mode s) AVAILABLE) as [E1 | E1].
    { rewrite E1. reflexivity. }
    destruct (Z.eqb_spec (current_mode s) CHILL_GRINDING) as [E2 | E2];
      [reflexivity |].
    destruct (Z.eqb_spec (current_mode s) GRINDING); reflexivity.
  - destruct (ring_request_body_rejected message now s Hfields) as [e Hrej].
    rewrite Hrej. reflexivity.
Qed.

Lemma mqtt_callback_node (topic msg : string) (now : Z) (s : node) :
  node_of (mqtt_callback topic msg now s) = s \/
  exists message,
    node_of (mqtt_callback topic msg now s)
    = node_of (handle_ring_request message now s).
Proof.
  unfold mqtt_callback.
  destruct (decode topic) as [topic_str |]; [| left; reflexivity].
  destruct (decode msg) as [message |]; [| left; reflexivity].
  destruct (endswith topic_str "/ring"); [| left; reflexivity].
  right. exists message. reflexivity.
Qed.

End Handlers.


Section Invariant.
Context {P : Platform}.

Lemma invariant_init : node_invariant init_node.
Proof. split; [simpl; unfold AVAILABLE; lia | simpl; discriminate]. Qed.

Lemma invariant_ring_request (message : string) (now : Z) (s : node) :
  node_invariant s -> node_invariant (node_of (handle_ring_request message now s)).
Proof.
  intros [Hm Hp]. rewrite handle_ring_request_node.
  destruct (request_fields message) as [[X u] |]; [| split; assumption].
  destruct (Z.eqb_spec (current_mode s) CHILL_GRINDING) as [E | E];
    [| split; assumption].
  split; simpl; [exact Hm | intros _; exact E].
Qed.

Lemma invariant_step (o : op) (s : node) :
  node_invariant s -> node_invariant (node_of (do_op o s)).
Proof.
  intros Hinv. destruct o as [topic msg now | pin_value now | now | now |];
    simpl do_op.
  - destruct (mqtt_callback_node topic msg now s) as [E | [message E]];
      rewrite E; [exact Hinv | apply invariant_ring_request; exact Hinv].
  - rewrite handle_button_node. destruct Hinv as [Hm Hp].
    destruct (qualifying_press s pin_value now).
    + destruct (truthy (pending_chime_id s)) eqn:Ht.
      * split; simpl; [exact Hm | discriminate].
      * split; simpl.
        -- apply Z.mod_pos_bound. lia.
        -- rewrite Ht. discriminate.
    + destruct (_ && _); split; assumption.
  - destruct (handle_status_led_run now s) as (s' & t & Hrun & _ & Hcore).
    rewrite Hrun. unfold node_of. cbn [fst snd].
    destruct (core_fields _ _ Hcore) as (_ & _ & Hmode & Hpend & _).
    unfold node_invariant. rewrite Hmode, Hpend. exact Hinv.
  - rewrite handle_pending_responses_run. destruct Hinv as [Hm Hp].
    destruct (_ && _); [| split; assumption].
    split; simpl; [exact Hm | discriminate].
  - rewrite (preserves_publish_status (fun s => s) s). exact Hinv.
Qed.

Lemma reachable_invariant (s : node) : reachable s -> node_invariant s.
Proof.
  induction 1 as [| s o _ IH]; [apply invariant_init |].
  apply invariant_step. exact IH.
Qed.

(** C9. The node starts in Available (1), and in every state it can reach
    [current_mode] is one of 0, 1, 2, 3, as it still is after any further
    entry point has run.  Hence the two lookups in the
    four-element tables of mode names are in bounds -- the one of
    [publish_status] at the current mode and the one of [handle_button] at
    the mode it has just advanced to -- and both methods return instead of
    raising [IndexError]. *)
Theorem mode_stays_in_range :
  forall s : node,
    reachable s ->
    current_mode init_node = AVAILABLE /\
    In (current_mode s) [0; 1; 2; 3] /\
    (forall o : op, In (current_mode (node_of (do_op o s))) [0; 1; 2; 3]) /\
    (exists name, py_index status_mode_names (current_mode s) = ret name) /\
    (exists name,
        py_index button_mode_names ((current_mode s + 1) mod 4) = ret name) /\
    result_of (publish_status s) = Return tt /\
    (forall pin_value now : Z,
        result_of (handle_button pin_value now s) = Return tt).
Proof.
  intros s Hreach. destruct (reachable_invariant s Hreach) as [Hm _].
  split; [reflexivity |].
  split; [simpl; lia |].
  split.
  { intro o. destruct (reachable_invariant _ (reach_step s o Hreach)) as [Ho _].
    simpl. lia. }
  split; [apply mode_names_index; [reflexivity | exact Hm] |].
  split; [apply mode_names_index;
          [reflexivity | apply Z.mod_pos_bound; lia] |].
  split.
  - destruct (publish_status_run s Hm) as [name Hrun]. rewrite Hrun. reflexivity.
  - intros pin_value now. apply handle_button_returns.
Qed.

End Invariant.


Section MainLoop.
Context {P : Platform}.

(** An idle iteration returns; it touches the pending chime only through
    the deadline poll at its end. *)
Lemma idle_iteration_run (i : tick) (s : node) :
  idle i ->
  exists s' t,
    loop_iteration i s = (Return tt, s', t) /\
    node_id s' = node_id s /\ chime_id s' = chime_id s /\
    current_mode s' = current_mode s /\
    if truthy (pending_chime_id s) && (t_poll i >? chime_response_deadline s)
    then
      published t = [(response_topic s,
                      dumps (response_data s "Positive" (pending_chime_id s)),
                      false)] /\
      pending_chime_id s' = JStr "" /\ chime_response_deadline s' = 0
    else
      published t = [] /\
      pending_chime_id s' = pending_chime_id s /\
      chime_response_deadline s' = chime_response_deadline s.
Proof.
  intros [Hin Hpin]. unfold loop_iteration. rewrite Hin.
  unfold check_msg. rewrite bind_ret_l.
  pose proof (release_run s (pin i) (t_button i) Hpin) as Hb.
  set (sb := if button_pressed s then set_button_pressed false s else s) in Hb.
  assert (Hcb : core sb = core s) by (subst sb; destruct (button_pressed s); reflexivity).
  rewrite (bind_run _ _ _ _ _ _ Hb). cbn [app].
  destruct (handle_status_led_run (t_led i) sb) as (sl & tl & Hl & Hmute & Hcl).
  rewrite (bind_run _ _ _ _ _ _ Hl).
  assert (Hcore : core sl = core s) by congruence.
  destruct (core_fields _ _ Hcore) as (Hn & Hc & Hm & Hp & Hd).
  destruct (core_response sl s "Positive" (pending_chime_id s) Hcore)
    as (Htopic & Hdata).
  pose proof (handle_pending_responses_run (t_poll i) sl) as Hpoll.
  rewrite Hp, Hd, Htopic, Hdata in Hpoll.
  destruct (truthy (pending_chime_id s) && (t_poll i >? chime_response_deadline s));
    rewrite (bind_run _ _ _ _ _ _ Hpoll);
    unfold result_of, node_of, trace_of; cbn [fst snd emit];
    do 2 eexists; (split; [reflexivity |]);
    rewrite !published_app, Hmute; simpl; repeat split; assumption.
Qed.

(** Idle iterations with nothing pending, or with the deadline not yet
    passed, publish nothing and keep the pending chime. *)
Lemma idle_loop_waits (inputs : list tick) (s : node) :
  Forall idle inputs ->
  (truthy (pending_chime_id s) = true ->
   Forall (fun i => t_poll i <= chime_response_deadline s) inputs) ->
  exists s' t,
    run_loop inputs s = (Return tt, s', t) /\
    published t = [] /\
    node_id s' = node_id s /\ chime_id s' = chime_id s /\
    current_mode s' = current_mode s /\
    pending_chime_id s' = pending_chime_id s /\
    chime_response_deadline s' = chime_response_deadline s.
Proof.
  intro Hidle. revert s.
  induction Hidle as [| i rest Hi _ IH]; intros s Hearly.
  - exists s, []. repeat split.
  - destruct (idle_iteration_run i s Hi) as (s1 & t1 & Hrun & Hn & Hc & Hm & Hcase).
    assert (Hcond : truthy (pending_chime_id s)
                    && (t_poll i >? chime_response_deadline s) = false).
    { destruct (truthy (pending_chime_id s)); [| reflexivity].
      specialize (Hearly eq_refl). inversion Hearly; subst.
      simpl. destruct (Z.gtb_spec (t_poll i) (chime_response_deadline s));
        [lia | reflexivity]. }
    rewrite Hcond in Hcase. destruct Hcase as (Hmute & Hp & Hd).
    destruct (IH s1) as (s' & t' & Hrun' & Hmute' & Hn' & Hc' & Hm' & Hp' & Hd').
    { rewrite Hp, Hd. intro Ht. specialize (Hearly Ht).
      inversion Hearly; assumption. }
    exists s', (t1 ++ t').
    simpl run_loop. rewrite (bind_run _ _ _ _ _ _ Hrun), Hrun'.
    unfold result_of, node_of, trace_of. cbn [fst snd].
    rewrite published_app, Hmute, Hmute'.
    repeat split; congruence.
Qed.

End MainLoop.

Section Deferred.
Context {P : Platform}.

Lemma deferred_after_request (s : node) (message : string) (now : Z)
      (members : list (string * json)) (X u : json) :
  current_mode s = CHILL_GRINDING ->
  loads message = Some (JObj members) ->
  assoc "chime_id" members = Some X ->
  assoc "user" members = Some u ->
  node_of (handle_ring_request message now s) = deferred X now s /\
  published (trace_of (handle_ring_request message now s)) = [].
Proof.
  intros Hmode Hl Hx Hu.
  rewrite handle_ring_request_run.
  rewrite (ring_request_body_by_mode message now s members X u Hl Hx Hu).
  cbv zeta. rewrite Hmode. simpl. split; [reflexivity | apply mute_play_chime].
Qed.

(** C2, as the code has it.  In ChillGrinding, a ring request with
    chime_id X -- any X -- is recorded as pending with deadline
    [now + 10000]; handling it publishes nothing, and no deadline poll whose
    clock is at most the deadline does anything.  When X is not empty (not a
    value Python counts as false): the first poll whose clock is past the
    deadline publishes exactly one message, on the node's response topic and
    not retained, whose payload carries the kind "Positive", the node's id
    and X as [original_chime_id]; it clears the pending chime (empty id,
    deadline 0), after which a poll publishes nothing whatever the clock.
    The same holds of the main loop, as long as no packet arrives and the
    button stays released: nothing is published up to the deadline, that one
    response by the first iteration whose poll reads a later clock, nothing
    afterwards. *)
Theorem chill_grinding_defers_response :
  forall (s : node) (message : string) (now : Z)
         (members : list (string * json)) (X u : json),
    current_mode s = CHILL_GRINDING ->
    loads message = Some (JObj members) ->
    assoc "chime_id" members = Some X ->
    assoc "user" members = Some u ->
    let r1 := handle_ring_request message now s in
    let s1 := node_of r1 in
    let response :=
      Publish ("/micropython_user/chime/" ++ chime_id s ++ "/response")%string
              (dumps (JObj [ ("timestamp", JStr "2025-01-01T00:00:00Z");
                             ("response", JStr "Positive");
                             ("node_id", JStr (node_id s));
                             ("original_chime_id", X) ]))
              false in
    result_of r1 = Return tt /\
    pending_chime_id s1 = X /\
    chime_response_deadline s1 = now + 10000 /\
    published (trace_of r1) = [] /\
    (forall t : Z, t <= now + 10000 ->
        handle_pending_responses t s1 = (Return tt, s1, [])) /\
    (truthy X = true ->
     (forall t t' : Z, t > now + 10000 ->
         handle_pending_responses t s1 = (Return tt, expired s1, [response]) /\
         pending_chime_id (expired s1) = JStr "" /\
         chime_response_deadline (expired s1) = 0 /\
         handle_pending_responses t' (expired s1)
           = (Return tt, expired s1, [])) /\
     (forall (early : list tick) (i : tick) (later : list tick),
         Forall idle early ->
         Forall (fun j => t_poll j <= now + 10000) early ->
         idle i -> t_poll i > now + 10000 ->
         Forall idle later ->
         let r2 := run_loop early s1 in
         let r3 := loop_iteration i (node_of r2) in
         let r4 := run_loop later (node_of r3) in
         result_of r2 = Return tt /\ published (trace_of r2) = [] /\
         result_of r3 = Return tt /\
         published (trace_of r3) = published [response] /\
         pending_chime_id (node_of r3) = JStr "" /\
         chime_response_deadline (node_of r3) = 0 /\
         result_of r4 = Return tt /\ published (trace_of r4) = [])).
Proof.
  intros s message now members X u Hmode Hl Hx Hu r1 s1 response.
  destruct (deferred_after_request s message now members X u Hmode Hl Hx Hu)
    as [Hnode Hmute].
  assert (Hret : result_of r1 = Return tt)
    by (subst r1; rewrite handle_ring_request_run; reflexivity).
  subst s1 r1. rewrite Hnode.
  split; [exact Hret |].
  split; [reflexivity |]. split; [reflexivity |]. split; [exact Hmute |].
  split.
  { intros t Ht. rewrite handle_pending_responses_run. simpl.
    destruct (Z.gtb_spec t (now + 10000)); [lia |].
    rewrite andb_false_r. reflexivity. }
  intro HX. split.
  { intros t t' Ht. rewrite !handle_pending_responses_run. simpl.
    rewrite HX. destruct (Z.gtb_spec t (now + 10000)); [| lia].
    repeat split. }
  intros early i later Hearly Hbefore Hi Hafter Hlater r2 r3 r4.
  destruct (idle_loop_waits early (deferred X now s) Hearly (fun _ => Hbefore))
    as (s2 & t2 & Hrun2 & Hmute2 & Hn2 & Hc2 & Hm2 & Hp2 & Hd2).
  subst r4 r3 r2. rewrite Hrun2.
  cbn [result_of node_of trace_of fst snd].
  destruct (idle_iteration_run i s2 Hi)
    as (s3 & t3 & Hrun3 & Hn3 & Hc3 & Hm3 & Hcase).
  rewrite Hp2, Hd2 in Hcase. simpl in Hcase. rewrite HX in Hcase.
  destruct (Z.gtb_spec (t_poll i) (now + 10000)); [| lia].
  simpl in Hcase. destruct Hcase as (Hpub3 & Hp3 & Hd3).
  rewrite Hrun3. cbn [result_of node_of trace_of fst snd].
  destruct (idle_loop_waits later s3 Hlater)
    as (s4 & t4 & Hrun4 & Hmute4 & _).
  { rewrite Hp3. simpl. discriminate. }
  rewrite Hrun4. cbn [result_of node_of trace_of fst snd].
  assert (Hcore : core s2 = core (deferred X now s))
    by (unfold core; rewrite Hn2, Hc2, Hm2, Hp2, Hd2; reflexivity).
  destruct (core_response s2 (deferred X now s) "Positive" X Hcore)
    as (Htopic & Hdata).
  repeat split; try assumption.
  rewrite Hpub3, Htopic, Hdata. reflexivity.
Qed.

(** C4. A chime is pending only in ChillGrinding, so whenever one is, a
    new request that parses replaces it: the node keeps the new chime_id Y
    and a fresh deadline in the one slot it has, everything else as before,
    and publishes nothing for the chime it drops.  The next answer, by
    timeout or by the button, is for Y alone and leaves nothing pending. *)
Theorem ring_request_overwrites_pending :
  forall (s : node) (message : string) (now : Z)
         (members : list (string * json)) (Y u : json),
    reachable s ->
    truthy (pending_chime_id s) = true ->
    loads message = Some (JObj members) ->
    assoc "chime_id" members = Some Y ->
    assoc "user" members = Some u ->
    let r := handle_ring_request message now s in
    let response := Publish (response_topic s)
                            (dumps (response_data s "Positive" Y)) false in
    current_mode s = CHILL_GRINDING /\
    node_of r = deferred Y now s /\
    pending_chime_id (node_of r) = Y /\
    chime_response_deadline (node_of r) = now + 10000 /\
    published (trace_of r) = [] /\
    (truthy Y = true ->
     (forall t : Z, t > now + 10000 ->
         trace_of (handle_pending_responses t (node_of r)) = [response] /\
         pending_chime_id (node_of (handle_pending_responses t (node_of r)))
           = JStr "") /\
     (forall pin_value t : Z,
         qualifying_press (node_of r) pin_value t = true ->
         trace_of (handle_button pin_value t (node_of r)) = [response] /\
         pending_chime_id (node_of (handle_button pin_value t (node_of r)))
           = JStr "")).
Proof.
  intros s message now members Y u Hreach Hpending Hl Hy Hu r response.
  destruct (reachable_invariant s Hreach) as [_ Hchill].
  specialize (Hchill Hpending).
  destruct (deferred_after_request s message now members Y u Hchill Hl Hy Hu)
    as [Hnode Hmute].
  subst r. rewrite Hnode.
  split; [exact Hchill |]. split; [reflexivity |]. split; [reflexivity |].
  split; [reflexivity |]. split; [exact Hmute |].
  intro HY. split.
  - intros t Ht. rewrite handle_pending_responses_run. simpl.
    rewrite HY. destruct (Z.gtb_spec t (now + 10000)); [| lia].
    split; reflexivity.
  - intros pin_value t Hq.
    rewrite (press_answers_run (deferred Y now s) pin_value t Hq HY).
    split; reflexivity.
Qed.

End Deferred.

(** ** The theorems at work on the stand-in platform *)

Section OnTheDemoPlatform.
#[local] Existing Instance Demo.platform.

(** In ChillGrinding the request for X, taken at tick 5000, is answered by
    the poll at tick 15001. *)
Lemma chill_grinding_defers_response_witness :
  handle_pending_responses (P := Demo.platform) 15001 Demo.pending_node
  = (Return tt, expired Demo.pending_node,
     [Publish "/micropython_user/chime/chime_a1b2c3d4e5f6/response"
        (dumps (JObj [ ("timestamp", JStr "2025-01-01T00:00:00Z");
                       ("response", JStr "Positive");
                       ("node_id", JStr "micropython_a1b2c3d4e5f6");
                       ("original_chime_id", JStr "X") ]))
        false]).
Proof.
  apply (proj1 (proj1 (proj2 (proj2 (proj2 (proj2 (proj2
    (chill_grinding_defers_response (P := Demo.platform) Demo.released_node
       Demo.ring_X 5000 [("chime_id", JStr "X"); ("user", JStr "u")]
       (JStr "X") (JStr "u") eq_refl eq_refl eq_refl eq_refl)))))
    eq_refl) 15001 0 eq_refl)).
Defined.

(** C2 as it is written does not hold for every chime_id.  In ChillGrinding,
    the request [{"chime_id": "", "user": "u"}] received at tick 5000 stores
    the empty string, which is also what "nothing pending" looks like, with
    deadline 15000; the poll at tick 20000, after the deadline, publishes
    nothing, and so does every iteration of the loop from then on. *)
Lemma empty_chime_id_is_never_answered :
  current_mode Demo.released_node = CHILL_GRINDING /\
  request_fields (P := Demo.platform) Demo.ring_empty_id
    = Some (JStr "", JStr "u") /\
  pending_chime_id
    (node_of (handle_ring_request (P := Demo.platform) Demo.ring_empty_id 5000
                Demo.released_node)) = JStr "" /\
  chime_response_deadline
    (node_of (handle_ring_request (P := Demo.platform) Demo.ring_empty_id 5000
                Demo.released_node)) = 15000 /\
  trace_of
    (handle_pending_responses (P := Demo.platform) 20000
       (node_of (handle_ring_request (P := Demo.platform) Demo.ring_empty_id
                   5000 Demo.released_node))) = [] /\
  published
    (trace_of
       (run_loop (P := Demo.platform)
          [Demo.idle_tick 20000; Demo.idle_tick 20010; Demo.idle_tick 20020]
          (node_of (handle_ring_request (P := Demo.platform) Demo.ring_empty_id
                      5000 Demo.released_node)))) = [].
Proof. repeat split. Qed.

(** A second request, for chime Y, replaces the pending chime X. *)
Lemma ring_request_overwrites_pending_witness :
  pending_chime_id Demo.pending_node = JStr "X" /\
  pending_chime_id
    (node_of (handle_ring_request (P := Demo.platform) Demo.ring_Y 7000
                Demo.pending_node)) = JStr "Y".
Proof.
  split; [reflexivity |].
  apply (proj1 (proj2 (proj2
    (ring_request_overwrites_pending (P := Demo.platform) Demo.pending_node
       Demo.ring_Y 7000 [("chime_id", JStr "Y"); ("user", JStr "u")]
       (JStr "Y") (JStr "u")
       (reach_step _ _ (reach_step _ _ (reach_step _ _ reach_init)))
       eq_refl eq_refl eq_refl eq_refl)))).
Defined.

(** From Available, four presses of the button lead back to Available. *)
Lemma button_press_cycles_mode_witness :
  current_mode Demo.start = AVAILABLE /\
  current_mode
    (node_of ((handle_button (P := Demo.platform) 1 1200 ;;
               handle_button 0 2000 ;; handle_button 1 2200 ;;
               handle_button 0 3000 ;; handle_button 1 3200 ;;
               handle_button 0 4000)
                (node_of (handle_button (P := Demo.platform) 0 1000 Demo.start))))
  = AVAILABLE.
Proof.
  split; [reflexivity |].
  apply (proj2 (proj2 (proj2 (proj2 (proj2 (proj2
    (button_press_cycles_mode (P := Demo.platform) Demo.start 0 1000
       eq_refl eq_refl)))))) 1200 2000 2200 3000 3200 4000).
  - simpl. unfold AVAILABLE. lia.
  - reflexivity.
  - reflexivity.
  - reflexivity.
Defined.

(** A press at tick 6000 while chime X is pending answers it: the one call
    made is the publication of the response, shown here as it goes out on the
    stand-in platform. *)
Lemma button_answers_pending_chime_witness :
  trace_of (handle_button (P := Demo.platform) 0 6000 Demo.pending_node)
  = [Publish "/micropython_user/chime/chime_a1b2c3d4e5f6/response"
       ("{" ++ Demo.field "timestamp" (Demo.quoted "2025-01-01T00:00:00Z")
            ++ ", " ++ Demo.field "response" (Demo.quoted "Positive")
            ++ ", " ++ Demo.field "node_id"
                         (Demo.quoted "micropython_a1b2c3d4e5f6")
            ++ ", " ++ Demo.field "original_chime_id" (Demo.quoted "X")
            ++ "}")%string
       false].
Proof.
  apply (proj1 (proj2
    (button_answers_pending_chime (P := Demo.platform) Demo.pending_node 0 6000
       eq_refl eq_refl))).
Defined.

(** The mode of a node that has seen a press, a release and a request. *)
Lemma mode_stays_in_range_witness :
  In (current_mode Demo.pending_node) [0; 1; 2; 3].
Proof.
  apply (proj1 (proj2
    (mode_stays_in_range (P := Demo.platform) Demo.pending_node
       (reach_step _ _ (reach_step _ _ (reach_step _ _ reach_init)))))).
Defined.

End OnTheDemoPlatform.

(** * Further properties of the node *)


Lemma final_duty_app (t1 t2 : list event) :
  final_duty (t1 ++ t2) =
  match final_duty t2 with
  | Some d => Some d
  | None => final_duty t1
  end.
Proof.
  induction t1 as [| ev t1 IH]; simpl.
  - destruct (final_duty t2); reflexivity.
  - rewrite IH. destruct (final_duty t2); reflexivity.
Qed.

Lemma slept_app (t1 t2 : list event) : slept (t1 ++ t2) = slept t1 + slept t2.
Proof.
  induction t1 as [| ev t1 IH]; simpl; [reflexivity |].
  destruct ev; rewrite ?IH; lia.
Qed.

Lemma assoc_In {A : Type} (key : string) (kv : list (string * A)) (v : A) :
  assoc key kv = Some v -> In v (map snd kv).
Proof.
  induction kv as [| [k w] rest IH]; simpl; [discriminate |].
  destruct (String.eqb k key).
  - intro H. inversion H. left. reflexivity.
  - intro H. right. apply IH. exact H.
Qed.

Lemma note_trace_playback (hz duration : Z) :
  In hz (map snd NOTE_FREQUENCIES) ->
  duration = 300 \/ duration = 500 ->
  Forall playback_event (note_trace hz duration).
Proof.
  intros Hhz Hd. unfold note_trace.
  repeat (apply Forall_cons; [simpl; tauto |]). apply Forall_nil.
Qed.

Lemma item_trace_playback (note : json) : Forall playback_event (item_trace note).
Proof.
  destruct note; unfold item_trace; try apply Forall_nil.
  destruct (assoc s NOTE_FREQUENCIES) as [hz |] eqn:E; [| apply Forall_nil].
  apply note_trace_playback; [eapply assoc_In; exact E | left; reflexivity].
Qed.

Lemma items_trace_playback (items : list json) :
  Forall playback_event (flat_map item_trace items).
Proof.
  induction items as [| x rest IH]; simpl; [constructor |].
  apply Forall_app. split; [apply item_trace_playback | exact IH].
Qed.

Lemma item_trace_final_duty (note : json) :
  item_trace note = [] \/ final_duty (item_trace note) = Some 0.
Proof.
  destruct note; unfold item_trace; auto.
  destruct (assoc s NOTE_FREQUENCIES); [right; reflexivity | left; reflexivity].
Qed.

Lemma items_trace_final_duty (items : list json) :
  flat_map item_trace items = [] \/
  final_duty (flat_map item_trace items) = Some 0.
Proof.
  induction items as [| x rest IH]; simpl; [left; reflexivity |].
  destruct IH as [E | E].
  - rewrite E, app_nil_r. apply item_trace_final_duty.
  - right. rewrite final_duty_app, E. reflexivity.
Qed.

Lemma slept_names (names : list string) :
  slept (flat_map item_trace (map JStr names))
  = 350 * Z.of_nat (List.length (known_notes names)).
Proof.
  induction names as [| n rest IH]; [reflexivity |].
  cbn [map flat_map]. rewrite slept_app, IH.
  unfold known_notes. cbn [filter]. unfold item_trace.
  destruct (assoc n NOTE_FREQUENCIES); cbn [List.length note_trace slept]; lia.
Qed.

Lemma unknown_names_trace (names : list string) :
  known_notes names = [] -> flat_map item_trace (map JStr names) = [].
Proof.
  induction names as [| n rest IH]; [reflexivity |].
  unfold known_notes. cbn [filter map flat_map]. unfold item_trace.
  destruct (assoc n NOTE_FREQUENCIES); [discriminate |].
  intro H. apply IH. exact H.
Qed.

Lemma single_char_is_no_note (c : ascii) :
  assoc (String c EmptyString) NOTE_FREQUENCIES = None.
Proof.
  unfold NOTE_FREQUENCIES. cbn [assoc String.eqb].
  repeat match goal with
         | |- context [Ascii.eqb ?a ?b] => destruct (Ascii.eqb a b)
         end; reflexivity.
Qed.

Lemma chars_trace (text : string) : flat_map item_trace (chars text) = [].
Proof.
  induction text as [| c rest IH]; [reflexivity |].
  cbn [chars flat_map]. unfold item_trace at 1.
  rewrite single_char_is_no_note. exact IH.
Qed.

(** X1. [play_chime] only ever drives the buzzer inside fixed bounds,
    whatever value the request carried as notes: every frequency it sets is
    one of the ten of the note table, every duty is 0 or 512, every pause is
    50, 300 or 500 ms; it calls nothing else and leaves the node alone. *)
Theorem play_chime_stays_in_bounds :
  forall (notes chords : json) (s : node),
    Forall playback_event (trace_of (play_chime notes chords s)) /\
    node_of (play_chime notes chords s) = s.
Proof.
  intros notes chords s. rewrite play_chime_run.
  destruct (truthy notes).
  - destruct (iterated notes) as [items |]; [| split; [constructor | reflexivity]].
    cbn [trace_of node_of fst snd]. split; [| reflexivity].
    apply Forall_app. split; [apply items_trace_playback |].
    repeat constructor.
  - cbn [trace_of node_of fst snd]. split; [| reflexivity].
    unfold default_trace, note_trace. cbn [app].
    repeat (apply Forall_cons; [simpl; tauto |]). apply Forall_nil.
Qed.

Lemma play_chime_final_duty (notes chords : json) (s : node) :
  final_duty (trace_of (play_chime notes chords s)) = Some 0 \/
  trace_of (play_chime notes chords s) = [].
Proof.
  rewrite play_chime_run. destruct (truthy notes).
  - destruct (iterated notes) as [items |]; [| right; reflexivity].
    cbn [trace_of snd]. left. rewrite final_duty_app. reflexivity.
  - left. reflexivity.
Qed.

(** X2. A ring request never leaves the buzzer sounding.  Whatever the
    payload and the mode, and also when playback fails on notes that cannot
    be iterated, either the handler made no call at all or the last duty it
    wrote to the buzzer is 0.  The same holds of [play_chime] alone. *)
Theorem ring_request_leaves_buzzer_off :
  forall {P : Platform} (message : string) (now : Z) (notes chords : json)
         (s : node),
    (final_duty (trace_of (play_chime notes chords s)) = Some 0 \/
     trace_of (play_chime notes chords s) = []) /\
    (final_duty (trace_of (handle_ring_request message now s)) = Some 0 \/
     trace_of (handle_ring_request message now s) = []).
Proof.
  intros P message now notes chords s. split; [apply play_chime_final_duty |].
  rewrite handle_ring_request_run. cbn [trace_of snd].
  destruct (request_fields message) as [[X u] |] eqn:Hfields.
  - destruct (request_fields_parsed message X u Hfields)
      as (members & Hl & Hx & Hu).
    rewrite (ring_request_body_by_mode message now s members X u Hl Hx Hu).
    cbv zeta.
    repeat (destruct (_ =? _);
            [ cbn [trace_of snd]; try (right; reflexivity);
              try apply play_chime_final_duty | ]);
      [| right; reflexivity].
    cbn [trace_of snd].
    destruct (play_chime_final_duty (request_notes members)
                (request_chords members) s) as [E | E].
    + left. rewrite final_duty_app.
      destruct (result_of _); cbn [final_duty]; exact E.
    + destruct (result_of (play_chime _ _ s)) eqn:Hres.
      * exfalso. revert E Hres. rewrite play_chime_run.
        destruct (truthy _); [| cbn; discriminate].
        destruct (iterated _) as [items |]; [| cbn; discriminate].
        cbn [trace_of snd]. intros E _.
        destruct (flat_map item_trace items); discriminate.
      * right. rewrite E. reflexivity.
  - destruct (ring_request_body_rejected message now s Hfields) as [e Hrej].
    rewrite Hrej. right. reflexivity.
Qed.

(** X3. How long playback blocks the caller.  Explicit notes cost 350 ms
    for each name that is a note of the table (300 ms of tone, 50 ms of gap)
    and nothing for any other name; the default pattern, played for an empty
    list, costs 1600 ms. *)
Theorem play_chime_blocking_time :
  forall (names : list string) (chords : json) (s : node),
    slept (trace_of (play_chime (JArr (map JStr names)) chords s))
    = match names with
      | [] => 1600
      | _ :: _ => 350 * Z.of_nat (List.length (known_notes names))
      end.
Proof.
  intros names chords s. rewrite play_chime_run.
  destruct names as [| n rest]; [reflexivity |].
  change (truthy (JArr (map JStr (n :: rest)))) with true. cbv iota.
  cbn [iterated trace_of snd].
  rewrite slept_app, slept_names. cbn [slept]. lia.
Qed.

(** X4. Notes that name nothing are played as silence, not as the default
    chime.  A non-empty list none of whose names is in the table, and a
    non-empty string given in place of a list (its characters are tried one
    by one, and no note has a one-letter name), both make [play_chime]
    return after a single call, [buzzer.duty(0)]. *)
Theorem unknown_notes_play_silence :
  forall (chords : json) (s : node),
    (forall (name : string) (names : list string),
        known_notes (name :: names) = [] ->
        play_chime (JArr (map JStr (name :: names))) chords s
        = (Return tt, s, [BuzzerDuty 0])) /\
    (forall (c : ascii) (text : string),
        play_chime (JStr (String c text)) chords s
        = (Return tt, s, [BuzzerDuty 0])).
Proof.
  intros chords s. split.
  - intros name names Hnone. rewrite play_chime_run.
    change (truthy (JArr (map JStr (name :: names)))) with true. cbv iota.
    cbn [iterated].
    rewrite (unknown_names_trace (name :: names) Hnone). reflexivity.
  - intros c text. rewrite play_chime_run.
    change (truthy (JStr (String c text))) with true. cbv iota.
    cbn [iterated]. rewrite chars_trace. reflexivity.
Qed.

(** X5. When playback fails, and when it does not.  [play_chime] raises
    only on notes that count as true and cannot be iterated (a number other
    than zero, [true]): it then raises [TypeError] before any call is made.
    On every other value it returns.  In particular a list is always played
    to the end, whatever it holds: an element that is not a string (a number,
    [null], a nested list, a dict) is passed over like an unknown name, since
    looking it up in the note table finds nothing -- the list sounds as it
    would without that element, and a list of one such element sounds as
    silence (not as the default chime, which is for the empty list).  The
    node is left as it was in all cases. *)
Theorem play_chime_failures :
  forall (notes chords : json) (s : node),
    (forall (x : json) (items : list json),
        play_chime (JArr (x :: items)) chords s
        = (Return tt, s, flat_map item_trace (x :: items) ++ [BuzzerDuty 0])) /\
    (forall (pre post : list json) (odd : json),
        (forall name, odd <> JStr name) ->
        pre ++ post <> [] ->
        play_chime (JArr (pre ++ odd :: post)) chords s
        = play_chime (JArr (pre ++ post)) chords s) /\
    (forall odd : json,
        (forall name, odd <> JStr name) ->
        play_chime (JArr [odd]) chords s = (Return tt, s, [BuzzerDuty 0])) /\
    (truthy notes = true -> iterated notes = None ->
     play_chime notes chords s = (Raise TypeError, s, [])) /\
    (result_of (play_chime notes chords s) = Return tt \/
     (truthy notes = true /\ iterated notes = None /\
      play_chime notes chords s = (Raise TypeError, s, []))).
Proof.
  intros notes chords s.
  assert (Hsilent : forall odd : json,
             (forall name, odd <> JStr name) -> item_trace odd = [])
    by (intros odd Hodd; destruct odd; try reflexivity;
        exfalso; eapply Hodd; reflexivity).
  split; [| split; [| split; [| split]]].
  - intros x items. rewrite play_chime_run. reflexivity.
  - intros pre post odd Hodd Hrest.
    rewrite !play_chime_run.
    assert (Ht1 : truthy (JArr (pre ++ odd :: post)) = true)
      by (destruct pre; reflexivity).
    assert (Ht2 : truthy (JArr (pre ++ post)) = true)
      by (destruct (pre ++ post); [contradiction | reflexivity]).
    rewrite Ht1, Ht2. cbn [iterated].
    rewrite !flat_map_app. cbn [flat_map]. rewrite (Hsilent odd Hodd).
    reflexivity.
  - intros odd Hodd. rewrite play_chime_run.
    change (truthy (JArr [odd])) with true. cbv iota. cbn [iterated flat_map].
    rewrite (Hsilent odd Hodd). reflexivity.
  - intros Ht Hi. rewrite play_chime_run, Ht, Hi. reflexivity.
  - rewrite play_chime_run. destruct (truthy notes); [| left; reflexivity].
    destruct (iterated notes); [left; reflexivity | right; auto].
Qed.

Lemma unknown_notes_play_silence_witness :
  play_chime (JArr (map JStr ["H9"; "do"])) (JArr []) Demo.start
  = (Return tt, Demo.start, [BuzzerDuty 0]).
Proof.
  apply (proj1 (unknown_notes_play_silence (JArr []) Demo.start) "H9" ["do"]).
  reflexivity.
Defined.

Lemma play_chime_failures_witness :
  play_chime (JInt 5) (JArr []) Demo.start = (Raise TypeError, Demo.start, []).
Proof.
  apply (proj1 (proj2 (proj2 (proj2
    (play_chime_failures (JInt 5) (JArr []) Demo.start))))); reflexivity.
Defined.

(** ** The button *)

Section ButtonMore.
Context {P : Platform}.

Lemma held_button_run (s : node) (now : Z) :
  button_pressed s = true -> handle_button 0 now s = (Return tt, s, []).
Proof.
  intro H. unfold handle_button, qualifying_press, bind, get.
  rewrite H. reflexivity.
Qed.

Lemma held_button_polls (times : list Z) (s : node) :
  button_pressed s = true ->
  for_each times (fun t => handle_button 0 t) s = (Return tt, s, []).
Proof.
  intro H. induction times as [| t rest IH]; [reflexivity |].
  simpl for_each. rewrite (bind_run _ _ _ _ _ _ (held_button_run s t H)), IH.
  reflexivity.
Qed.

Lemma after_press (s : node) (pin_value now : Z) :
  qualifying_press s pin_value now = true ->
  button_pressed (node_of (handle_button pin_value now s)) = true /\
  last_button_press (node_of (handle_button pin_value now s)) = now.
Proof.
  intro Hq. rewrite handle_button_node, Hq.
  destruct (truthy (pending_chime_id s)); split; reflexivity.
Qed.

(** X6. One press counts once.  After a press has been taken at clock
    [now], polls that still read the line pressed do nothing, however many
    and whatever their clock; once the button has been released, a new press
    within 500 ms of [ticks_diff] of the first is ignored outright (no
    message, no change of the node); and a press read more than 500 ms after
    the first qualifies again. *)
Theorem button_debounce :
  forall (s : node) (pin_value now : Z),
    qualifying_press s pin_value now = true ->
    let s1 := node_of (handle_button pin_value now s) in
    (forall times : list Z,
        for_each times (fun t => handle_button 0 t) s1 = (Return tt, s1, [])) /\
    (forall u t : Z,
        let s2 := node_of (handle_button 1 u s1) in
        s2 = set_button_pressed false s1 /\
        (ticks_diff t now <= 500 -> handle_button 0 t s2 = (Return tt, s2, [])) /\
        (ticks_diff t now > 500 -> qualifying_press s2 0 t = true)).
Proof.
  intros s pin_value now Hq s1.
  destruct (after_press s pin_value now Hq) as [Hpressed Hlast]. fold s1 in Hpressed, Hlast.
  split; [intro times; apply held_button_polls; exact Hpressed |].
  intros u t s2.
  assert (Hs2 : s2 = set_button_pressed false s1).
  { subst s2. rewrite release_run by discriminate. rewrite Hpressed. reflexivity. }
  split; [exact Hs2 |]. rewrite Hs2. split.
  - intro Hearly. unfold handle_button, qualifying_press, bind, get.
    cbn [button_pressed last_button_press set_button_pressed].
    rewrite Hlast. destruct (Z.gtb_spec (ticks_diff t now) 500); [lia |].
    reflexivity.
  - intro Hlate. unfold qualifying_press.
    cbn [button_pressed last_button_press set_button_pressed].
    rewrite Hlast. apply Z.gtb_gt in Hlate. rewrite Hlate. reflexivity.
Qed.

Lemma publish_status_names_mode (s : node) :
  0 <= current_mode s < 4 ->
  publish_status s =
  (Return tt, s,
   [Publish (status_topic s)
            (dumps (status_data s (nth (Z.to_nat (current_mode s))
                                       status_mode_names EmptyString)))
            true]).
Proof.
  intro Hm. assert (Hc : current_mode s = 0 \/ current_mode s = 1 \/
                         current_mode s = 2 \/ current_mode s = 3) by lia.
  unfold publish_status, bind, get.
  destruct Hc as [E | [E | [E | E]]]; rewrite E; reflexivity.
Qed.

Lemma press_advances_named (s : node) (pin_value now : Z) :
  qualifying_press s pin_value now = true ->
  truthy (pending_chime_id s) = false ->
  trace_of (handle_button pin_value now s) =
    [Publish (status_topic s)
       (dumps (status_data s
                 (nth (Z.to_nat ((current_mode s + 1) mod 4))
                      status_mode_names EmptyString)))
       true].
Proof.
  intros Hq Ht.
  assert (Hm : 0 <= current_mode (advanced now s) < 4)
    by (simpl; apply Z.mod_pos_bound; lia).
  destruct (mode_names_index button_mode_names _ eq_refl Hm) as [upper Hupper].
  pose proof (publish_status_names_mode _ Hm) as Hname.
  unfold handle_button, bind, get.
  rewrite Hq, Ht. unfold modify at 1 2 3. cbv beta iota. unfold get.
  cbv beta iota. fold (advanced now s). rewrite Hupper. unfold ret at 1.
  cbv beta iota. rewrite Hname. reflexivity.
Qed.

(** X7. The status published on a change of mode names the new mode.  A
    qualifying press with nothing pending makes exactly one call to the
    outside: a retained message on the status topic whose "mode" is the name,
    in [DoNotDisturb, Available, ChillGrinding, Grinding], of the mode the
    node has just moved to.  Any other call of [handle_button] publishes no
    retained message. *)
Theorem mode_change_publishes_new_mode :
  forall (s : node) (pin_value now : Z),
    (qualifying_press s pin_value now = true ->
     truthy (pending_chime_id s) = false ->
     trace_of (handle_button pin_value now s) =
       [Publish ("/micropython_user/chime/" ++ chime_id s ++ "/status")%string
          (dumps (JObj
             [ ("chime_id", JStr (chime_id s));
               ("online", JBool true);
               ("last_seen", JStr "2025-01-01T00:00:00Z");
               ("node_id", JStr (node_id s));
               ("mode",
                 JStr (nth (Z.to_nat ((current_mode s + 1) mod 4))
                           ["DoNotDisturb"; "Available"; "ChillGrinding";
                            "Grinding"] EmptyString)) ]))
          true]) /\
    (qualifying_press s pin_value now && negb (truthy (pending_chime_id s))
       = false ->
     filter (fun m => snd m) (published (trace_of (handle_button pin_value now s)))
       = []).
Proof.
  intros s pin_value now. split.
  - apply press_advances_named.
  - intro Hcond. destruct (qualifying_press s pin_value now) eqn:Hq.
    + destruct (truthy (pending_chime_id s)) eqn:Ht; [| discriminate].
      rewrite (press_answers_run s pin_value now Hq Ht). reflexivity.
    + clear Hcond. unfold handle_button, bind, get. rewrite Hq.
      destruct (negb (pin_value =? 0) && button_pressed s); reflexivity.
Qed.

End ButtonMore.

Section ButtonMoreDemo.
#[local] Existing Instance Demo.platform.

(** The press at tick 1000 is not taken a second time at tick 1400. *)
Lemma button_debounce_witness :
  handle_button 0 1400 Demo.released_node = (Return tt, Demo.released_node, []).
Proof.
  apply (proj1 (proj2 (proj2
    (button_debounce (P := Demo.platform) Demo.start 0 1000 eq_refl)
    1200 1400))).
  simpl. lia.
Defined.

(** From Available, the press publishes the status "ChillGrinding". *)
Lemma mode_change_publishes_new_mode_witness :
  trace_of (handle_button 0 1000 Demo.start) =
    [Publish "/micropython_user/chime/chime_a1b2c3d4e5f6/status"
       (dumps (JObj [ ("chime_id", JStr "chime_a1b2c3d4e5f6");
                      ("online", JBool true);
                      ("last_seen", JStr "2025-01-01T00:00:00Z");
                      ("node_id", JStr "micropython_a1b2c3d4e5f6");
                      ("mode", JStr "ChillGrinding") ]))
       true].
Proof.
  apply (proj1 (mode_change_publishes_new_mode (P := Demo.platform)
                  Demo.start 0 1000)); reflexivity.
Defined.

End ButtonMoreDemo.

(** ** What the node publishes *)

Lemma responses_app (t1 t2 : list event) :
  responses (t1 ++ t2) = responses t1 ++ responses t2.
Proof. unfold responses. rewrite published_app, filter_app. reflexivity. Qed.

Lemma bind_result {A B : Type} (m : M A) (k : A -> M B) (s : node) :
  result_of (bind m k s) =
  match result_of (m s) with
  | Return a => result_of (k a (node_of (m s)))
  | Raise e => Raise e
  end.
Proof.
  unfold bind, result_of, node_of.
  destruct (m s) as [[[a | e] s1] t1]; [| reflexivity].
  cbn [fst snd]. destruct (k a s1) as [[r s2] t2]. reflexivity.
Qed.

Section Publishing.
Context {P : Platform}.

Lemma mqtt_callback_run (topic msg : string) (now : Z) (s : node) :
  mqtt_callback topic msg now s = (Raise UnicodeError, s, []) \/
  mqtt_callback topic msg now s = (Return tt, s, []) \/
  exists message,
    mqtt_callback topic msg now s = handle_ring_request message now s.
Proof.
  unfold mqtt_callback.
  destruct (decode topic) as [topic_str |]; [| left; reflexivity].
  destruct (decode msg) as [message |]; [| left; reflexivity].
  destruct (endswith topic_str "/ring"); [| right; left; reflexivity].
  right. right. exists message. reflexivity.
Qed.

(** What a ring request publishes: nothing, or in Grinding one response. *)
Lemma handle_ring_request_published (message : string) (now : Z) (s : node) :
  published (trace_of (handle_ring_request message now s)) = [] \/
  (current_mode s = GRINDING /\
   exists X u,
     request_fields message = Some (X, u) /\
     published (trace_of (handle_ring_request message now s))
     = [(response_topic s, dumps (response_data s "Positive" X), false)]).
Proof.
  rewrite handle_ring_request_run. cbn [trace_of snd].
  destruct (request_fields message) as [[X u] |] eqn:Hfields.
  - destruct (request_fields_parsed message X u Hfields)
      as (members & Hl & Hx & Hu).
    rewrite (ring_request_body_by_mode message now s members X u Hl Hx Hu).
    cbv zeta.
    destruct (Z.eqb_spec (current_mode s) DO_NOT_DISTURB); [left; reflexivity |].
    destruct (Z.eqb_spec (current_mode s) AVAILABLE);
      [left; apply mute_play_chime |].
    destruct (Z.eqb_spec (current_mode s) CHILL_GRINDING);
      [left; apply mute_play_chime |].
    destruct (Z.eqb_spec (current_mode s) GRINDING) as [E3 | E3];
      [| left; reflexivity].
    cbn [trace_of snd]. rewrite published_app, (mute_play_chime _ _ s).
    destruct (result_of _); [| left; reflexivity].
    right. split; [exact E3 |]. exists X, u. split; reflexivity.
  - destruct (ring_request_body_rejected message now s Hfields) as [e Hrej].
    rewrite Hrej. left. reflexivity.
Qed.

Lemma publish_status_trace (s : node) :
  node_of (publish_status s) = s /\
  (trace_of (publish_status s) = [] \/
   exists name,
     In name status_mode_names /\
     trace_of (publish_status s)
     = [Publish (status_topic s) (dumps (status_data s name)) true]).
Proof.
  split; [apply (preserves_publish_status (fun s => s)) |].
  unfold publish_status, bind, get, py_index. cbv beta iota.
  destruct (_ && _); [| left; reflexivity].
  destruct (nth_error status_mode_names _) as [name |] eqn:E;
    [| left; reflexivity].
  right. exists name. split; [eapply nth_error_In; exact E | reflexivity].
Qed.

Lemma new_mode_name_In (m : Z) :
  In (nth (Z.to_nat ((m + 1) mod 4)) status_mode_names EmptyString)
     status_mode_names.
Proof.
  pose proof (Z.mod_pos_bound (m + 1) 4 ltac:(lia)) as Hb.
  assert (Hc : (m + 1) mod 4 = 0 \/ (m + 1) mod 4 = 1 \/
               (m + 1) mod 4 = 2 \/ (m + 1) mod 4 = 3) by lia.
  destruct Hc as [E | [E | [E | E]]]; rewrite E; simpl; auto.
Qed.

(** One entry point: what it publishes, and what it does to the count of
    pending chimes. *)
Ltac quiet_count :=
  first
    [ cbn [trace_of node_of fst snd]; unfold responses;
      cbn [published filter List.length snd negb]; lia
    | unfold responses, pending_count; cbn; lia ].

Lemma do_op_messages (o : op) (s : node) :
  Forall (own_message s) (published (trace_of (do_op o s))) /\
  (List.length (responses (trace_of (do_op o s)))
   + pending_count (node_of (do_op o s))
   <= pending_count s
      + match o with OpMessage _ _ _ => 1 | _ => 0 end)%nat.
Proof.
  destruct o as [topic msg now | pin_value now | now | now |]; simpl do_op.
  - destruct (mqtt_callback_run topic msg now s) as [E | [E | [message E]]];
      rewrite E; [split; [apply Forall_nil | quiet_count] ..|].
    pose proof (handle_ring_request_node message now s) as Hnode.
    destruct (handle_ring_request_published message now s)
      as [Hpub | (Hmode & X & u & Hfields & Hpub)].
    + unfold responses. rewrite Hpub. split; [cbn; apply Forall_nil |].
      rewrite Hnode. destruct (request_fields message) as [[X u] |];
        [| quiet_count].
      destruct (current_mode s =? CHILL_GRINDING); [| quiet_count].
      unfold pending_count. simpl.
      destruct (truthy X), (truthy (pending_chime_id s)); quiet_count.
    + unfold responses. rewrite Hpub, Hnode, Hfields, Hmode. simpl. split.
      * apply Forall_cons; [| apply Forall_nil]. left. simpl. repeat split. exists X. reflexivity.
      * lia.
  - destruct (qualifying_press s pin_value now) eqn:Hq.
    + destruct (truthy (pending_chime_id s)) eqn:Ht.
      * rewrite (press_answers_run s pin_value now Hq Ht).
        unfold pending_count. rewrite Ht. simpl. split; [| lia].
        apply Forall_cons; [| apply Forall_nil]. left. simpl. repeat split.
        exists (pending_chime_id s). reflexivity.
      * pose proof (press_advances_named s pin_value now Hq Ht) as Htrace.
        pose proof (handle_button_node pin_value now s) as Hnode.
        rewrite Hq, Ht in Hnode. rewrite Htrace, Hnode.
        unfold pending_count. simpl. rewrite Ht. split; [| quiet_count].
        apply Forall_cons; [| apply Forall_nil]. right. simpl. repeat split.
        eexists. split; [apply new_mode_name_In | reflexivity].
    + unfold handle_button, bind, get. rewrite Hq.
      destruct (negb (pin_value =? 0) && button_pressed s);
        (split; [cbn; apply Forall_nil | quiet_count]).
  - destruct (handle_status_led_run now s) as (s' & t & Hrun & Hmute & Hcore).
    rewrite Hrun. cbn [trace_of node_of fst snd]. unfold responses.
    rewrite Hmute. split; [cbn; apply Forall_nil |].
    destruct (core_fields _ _ Hcore) as (_ & _ & _ & Hp & _).
    unfold pending_count. rewrite Hp. simpl. lia.
  - rewrite handle_pending_responses_run.
    destruct (truthy (pending_chime_id s) && (now >? chime_response_deadline s))
      eqn:Hc; [| split; [cbn; apply Forall_nil | quiet_count]].
    apply andb_true_iff in Hc. destruct Hc as [Ht _].
    unfold pending_count. rewrite Ht. simpl. split; [| lia].
    apply Forall_cons; [| apply Forall_nil]. left. simpl. repeat split.
    exists (pending_chime_id s). reflexivity.
  - destruct (publish_status_trace s) as [Hnode [E | (name & Hin & E)]];
      rewrite Hnode, E.
    + split; [cbn; apply Forall_nil | quiet_count].
    + split; [| quiet_count].
      apply Forall_cons; [| apply Forall_nil]. right. simpl. repeat split.
      exists name. split; [exact Hin | reflexivity].
Qed.

End Publishing.

Section Conversation.
Context {P : Platform}.

Lemma do_op_keeps_ids (o : op) : preserves ids (do_op o).
Proof.
  destruct o; simpl do_op;
    unfold mqtt_callback, handle_ring_request, ring_request_body, gate,
      handle_button, handle_status_led, blink, handle_pending_responses;
    frame.
Qed.

Lemma own_message_ids (s1 s2 : node) (m : string * string * bool) :
  ids s1 = ids s2 -> own_message s1 m -> own_message s2 m.
Proof.
  unfold ids. intro H. inversion H as [[Hn Hc]].
  unfold own_message, response_topic, response_data, status_topic, status_data.
  rewrite Hn, Hc. tauto.
Qed.

Lemma run_ops_messages (ops : list op) (s : node) :
  Forall (own_message s) (published (trace_of (run_ops ops s))) /\
  ids (node_of (run_ops ops s)) = ids s /\
  (List.length (responses (trace_of (run_ops ops s)))
   + pending_count (node_of (run_ops ops s))
   <= pending_count s + packets ops)%nat.
Proof.
  revert s. induction ops as [| o rest IH]; intro s.
  - split; [apply Forall_nil |]. split; [reflexivity |].
    change (node_of (run_ops [] s)) with s.
    change (trace_of (run_ops [] s)) with (@nil event).
    unfold responses, packets. cbn [published filter List.length]. lia.
  - destruct (do_op_messages o s) as [Hown Hcount].
    pose proof (do_op_keeps_ids o s) as Hids.
    assert (Hpackets : packets (o :: rest)
                       = (match o with OpMessage _ _ _ => 1 | _ => 0 end
                          + packets rest)%nat)
      by (unfold packets; destruct o; reflexivity).
    rewrite Hpackets. simpl run_ops. unfold bind.
    destruct (do_op o s) as [[[[] | e] s1] t1];
      cbn [trace_of node_of fst snd] in Hown, Hcount, Hids.
    + destruct (IH s1) as (Hown' & Hids' & Hcount').
      destruct (run_ops rest s1) as [[r s2] t2].
      cbn [trace_of node_of fst snd] in *.
      rewrite published_app, responses_app, length_app.
      split; [| split; [congruence | lia]].
      apply Forall_app. split; [exact Hown |].
      eapply Forall_impl; [| exact Hown'].
      intros m Hm. apply (own_message_ids s1 s); assumption.
    + cbn [trace_of node_of fst snd].
      split; [exact Hown |]. split; [exact Hids | lia].
Qed.

(** X8. The node answers at most once for each request.  Over any run of
    its entry points -- packets, button polls, LED polls, deadline polls,
    status timer, in any order and with any inputs -- the number of responses
    published, plus one if a chime is still pending at the end, is at most
    the number of packets received, plus one if a chime was pending at the
    start.  From start-up, the node never publishes more responses than it
    has received packets. *)
Theorem at_most_one_response_per_request :
  forall (ops : list op) (s : node),
    (List.length (responses (trace_of (run_ops ops s)))
     + pending_count (node_of (run_ops ops s))
     <= packets ops + pending_count s)%nat /\
    (List.length (responses (trace_of (run_ops ops init_node)))
     <= packets ops)%nat.
Proof.
  intros ops s. split.
  - destruct (run_ops_messages ops s) as (_ & _ & H). lia.
  - destruct (run_ops_messages ops init_node) as (_ & _ & H).
    change (pending_count init_node) with 0%nat in H. lia.
Qed.

(** X9. The node only ever speaks on its own two topics.  Over any run of
    its entry points, every message published is either a response on
    [/<user>/chime/<chime_id>/response], not retained and of kind "Positive",
    or a status on [/<user>/chime/<chime_id>/status], retained and naming one
    of the four modes; and the identifiers these are built from, [node_id]
    and [chime_id], are the same at the end of the run as at its start. *)
Theorem node_publishes_only_its_own_messages :
  forall (ops : list op) (s : node),
    Forall (own_message s) (published (trace_of (run_ops ops s))) /\
    node_id (node_of (run_ops ops s)) = node_id s /\
    chime_id (node_of (run_ops ops s)) = chime_id s.
Proof.
  intros ops s. destruct (run_ops_messages ops s) as (Hown & Hids & _).
  split; [exact Hown |]. unfold ids in Hids. inversion Hids. auto.
Qed.

End Conversation.

(** ** Topics and the main loop *)

Lemma string_length_append (a b : string) :
  String.length (a ++ b) = (String.length a + String.length b)%nat.
Proof. induction a as [| c a IH]; simpl; [reflexivity | rewrite IH; reflexivity]. Qed.

Lemma substring_whole (a : string) : substring 0 (String.length a) a = a.
Proof. induction a as [| c a IH]; simpl; [reflexivity | rewrite IH; reflexivity]. Qed.

Lemma substring_skip (a b : string) (k : nat) :
  substring (String.length a) k (a ++ b) = substring 0 k b.
Proof. induction a as [| c a IH]; simpl; [reflexivity | exact IH]. Qed.

Lemma substring_split (a : string) (n : nat) :
  (n <= String.length a)%nat ->
  a = (substring 0 n a ++ substring n (String.length a - n) a)%string.
Proof.
  revert n. induction a as [| c a IH]; intros n Hn.
  - destruct n; reflexivity.
  - destruct n as [| n].
    + simpl. rewrite substring_whole. reflexivity.
    + simpl in *. rewrite <- (IH n) by lia. reflexivity.
Qed.

Lemma endswith_spec (a suffix : string) :
  endswith a suffix = true <-> exists prefix, a = (prefix ++ suffix)%string.
Proof.
  unfold endswith. split.
  - intro H. apply andb_true_iff in H. destruct H as [Hlen Heq].
    apply Nat.leb_le in Hlen. apply String.eqb_eq in Heq.
    remember (String.length suffix) as k eqn:Hk.
    exists (substring 0 (String.length a - k) a).
    pose proof (substring_split a (String.length a - k) ltac:(lia)) as Hsplit.
    replace (String.length a - (String.length a - k))%nat with k in Hsplit
      by lia.
    rewrite Heq in Hsplit. exact Hsplit.
  - intros [prefix ->]. rewrite string_length_append.
    apply andb_true_iff. split; [apply Nat.leb_le; lia |].
    replace (String.length prefix + String.length suffix
             - String.length suffix)%nat
      with (String.length prefix) by lia.
    rewrite substring_skip, substring_whole. apply String.eqb_refl.
Qed.

Section TopicsAndLoop.
Context {P : Platform}.

Lemma callback_on_ring_topic (topic msg prefix message : string) (now : Z)
      (s : node) :
  decode topic = Some (prefix ++ "/ring")%string ->
  decode msg = Some message ->
  mqtt_callback topic msg now s = handle_ring_request message now s.
Proof.
  intros Ht Hm. unfold mqtt_callback. rewrite Ht, Hm.
  assert (Hring : endswith (prefix ++ "/ring") "/ring" = true)
    by (apply endswith_spec; exists prefix; reflexivity).
  rewrite Hring. reflexivity.
Qed.

(** X10. Which packets reach the ring handler.  A packet whose topic
    decodes to a text ending in "/ring" -- such as the topic
    [/<user>/chime/<chime_id>/ring] that [connect_mqtt] subscribes to, for
    any chime_id -- is handed, decoded, to [handle_ring_request]; a packet on
    any other topic is dropped without a call and without a change; a topic
    or payload that does not decode makes the callback raise before anything
    is done. *)
Theorem ring_packets_reach_the_handler :
  forall (topic msg : string) (now : Z) (s : node),
    (forall (topic_str message : string),
        decode topic = Some topic_str -> decode msg = Some message ->
        ((exists prefix, topic_str = (prefix ++ "/ring")%string) ->
         mqtt_callback topic msg now s = handle_ring_request message now s) /\
        (forall s0 : node, topic_str = ring_topic s0 ->
         mqtt_callback topic msg now s = handle_ring_request message now s) /\
        (~ (exists prefix, topic_str = (prefix ++ "/ring")%string) ->
         mqtt_callback topic msg now s = (Return tt, s, []))) /\
    (decode topic = None \/ decode msg = None ->
     mqtt_callback topic msg now s = (Raise UnicodeError, s, [])).
Proof.
  intros topic msg now s. split.
  - intros topic_str message Ht Hm. unfold mqtt_callback. rewrite Ht, Hm.
    split; [| split].
    + intro Hring. apply endswith_spec in Hring. rewrite Hring. reflexivity.
    + intros s0 ->.
      assert (Hring : endswith (ring_topic s0) "/ring" = true).
      { apply endswith_spec.
        exists ("/" ++ USER_ID ++ "/chime/" ++ chime_id s0)%string.
        reflexivity. }
      rewrite Hring. reflexivity.
    + intro Hother. destruct (endswith topic_str "/ring") eqn:E; [| reflexivity].
      exfalso. apply Hother. apply endswith_spec. exact E.
  - intros [Ht | Hm]; unfold mqtt_callback.
    + rewrite Ht. reflexivity.
    + rewrite Hm. destruct (decode topic); reflexivity.
Qed.

Lemma handle_status_led_returns (now : Z) (s : node) :
  result_of (handle_status_led now s) = Return tt.
Proof.
  destruct (handle_status_led_run now s) as (s' & t & Hrun & _).
  rewrite Hrun. reflexivity.
Qed.

Lemma handle_pending_responses_returns (now : Z) (s : node) :
  result_of (handle_pending_responses now s) = Return tt.
Proof. rewrite handle_pending_responses_run. destruct (_ && _); reflexivity. Qed.

Lemma check_msg_result (packet : option (string * string)) (now : Z) (s : node) :
  result_of (check_msg packet now s) = Return tt \/
  (result_of (check_msg packet now s) = Raise UnicodeError /\
   exists topic msg, packet = Some (topic, msg) /\
                     (decode topic = None \/ decode msg = None)).
Proof.
  destruct packet as [[topic msg] |]; [| left; reflexivity].
  simpl check_msg. unfold mqtt_callback.
  destruct (decode topic) as [topic_str |] eqn:Ht;
    [| right; split; [reflexivity | exists topic, msg; auto]].
  destruct (decode msg) as [message |] eqn:Hm;
    [| right; split; [reflexivity | exists topic, msg; auto]].
  left. destruct (endswith topic_str "/ring"); [| reflexivity].
  rewrite handle_ring_request_run. reflexivity.
Qed.

Lemma loop_iteration_result (i : tick) (s : node) :
  result_of (loop_iteration i s)
  = result_of (check_msg (incoming i) (t_msg i) s).
Proof.
  unfold loop_iteration. rewrite bind_result.
  destruct (result_of (check_msg (incoming i) (t_msg i) s)) as [[] | e];
    [| reflexivity].
  rewrite bind_result, handle_button_returns.
  rewrite bind_result, handle_status_led_returns.
  rewrite bind_result, handle_pending_responses_returns. reflexivity.
Qed.

Lemma run_loop_result (inputs : list tick) (s : node) :
  (result_of (run_loop inputs s) = Return tt \/
   result_of (run_loop inputs s) = Raise UnicodeError) /\
  (Forall decodable inputs -> result_of (run_loop inputs s) = Return tt).
Proof.
  revert s. induction inputs as [| i rest IH]; intro s.
  - split; [left |]; reflexivity.
  - simpl run_loop. rewrite bind_result, loop_iteration_result.
    destruct (check_msg_result (incoming i) (t_msg i) s)
      as [E | (E & topic & msg & Hpacket & Hbad)]; rewrite E.
    + split; [apply IH |]. intro Hall. inversion Hall; subst. apply IH. assumption.
    + split; [right; reflexivity |]. intro Hall. inversion Hall as [| ? ? Hi _]; subst.
      unfold decodable in Hi. rewrite Hpacket in Hi. destruct Hi as [Ht Hm].
      destruct Hbad; contradiction.
Qed.

(** X11. Which of the node's own steps can raise.  What is stated here is
    about the code of the node, given its inputs: the packet that
    [check_msg] found on the socket, the level of the pin, the clock.  A
    failure of those reads themselves (a dropped connection inside the MQTT
    client, say) is not the node's code and is not covered.  Given its
    inputs, the handling of a ring request, the button poll, the LED poll and
    the deadline poll return from every state; the callback returns on every
    packet that decodes and raises [UnicodeError] on one that does not; so the
    steps of the loop after a delivery can only be cut short by
    [UnicodeError], and are not when every delivered packet decodes. *)
Theorem only_undecodable_packets_raise :
  forall s : node,
    (forall (message : string) (now : Z),
        result_of (handle_ring_request message now s) = Return tt) /\
    (forall pin_value now : Z,
        result_of (handle_button pin_value now s) = Return tt) /\
    (forall now : Z, result_of (handle_status_led now s) = Return tt) /\
    (forall now : Z, result_of (handle_pending_responses now s) = Return tt) /\
    (forall (topic msg : string) (now : Z),
        (decode topic <> None -> decode msg <> None ->
         result_of (mqtt_callback topic msg now s) = Return tt) /\
        (decode topic = None \/ decode msg = None ->
         result_of (mqtt_callback topic msg now s) = Raise UnicodeError)) /\
    (forall inputs : list tick,
        (result_of (run_loop inputs s) = Return tt \/
         result_of (run_loop inputs s) = Raise UnicodeError) /\
        (Forall decodable inputs -> result_of (run_loop inputs s) = Return tt)).
Proof.
  intro s.
  split; [intros; rewrite handle_ring_request_run; reflexivity |].
  split; [intros; apply handle_button_returns |].
  split; [intros; apply handle_status_led_returns |].
  split; [intros; apply handle_pending_responses_returns |].
  split; [| intro inputs; apply run_loop_result].
  intros topic msg now. unfold mqtt_callback. split.
  - intros Ht Hm.
    destruct (decode topic) as [topic_str |]; [| contradiction].
    destruct (decode msg) as [message |]; [| contradiction].
    destruct (endswith topic_str "/ring"); [| reflexivity].
    rewrite handle_ring_request_run. reflexivity.
  - intros [Ht | Hm].
    + rewrite Ht. reflexivity.
    + rewrite Hm. destruct (decode topic); reflexivity.
Qed.

End TopicsAndLoop.

Section Footprints.
Context {P : Platform}.

(** X12. What a ring request can touch.  Whatever the payload, the handler
    returns; outside ChillGrinding it leaves the node exactly as it was, and
    in ChillGrinding it changes at most [pending_chime_id] and the deadline;
    outside Grinding it publishes nothing, and in any mode it publishes at
    most one message. *)
Theorem ring_request_footprint :
  forall (message : string) (now : Z) (s : node),
    let r := handle_ring_request message now s in
    result_of r = Return tt /\
    (current_mode s <> CHILL_GRINDING -> node_of r = s) /\
    (node_of r = s \/ exists X, node_of r = deferred X now s) /\
    (current_mode s <> GRINDING -> published (trace_of r) = []) /\
    (List.length (published (trace_of r)) <= 1)%nat.
Proof.
  intros message now s r. subst r.
  pose proof (handle_ring_request_node message now s) as Hnode.
  split; [rewrite handle_ring_request_run; reflexivity |].
  split.
  { intro Hmode. rewrite Hnode.
    destruct (request_fields message) as [[X u] |]; [| reflexivity].
    destruct (Z.eqb_spec (current_mode s) CHILL_GRINDING);
      [contradiction | reflexivity]. }
  split.
  { rewrite Hnode. destruct (request_fields message) as [[X u] |]; [| auto].
    destruct (current_mode s =? CHILL_GRINDING); [right; exists X |]; auto. }
  destruct (handle_ring_request_published message now s)
    as [Hpub | (Hmode & X & u & _ & Hpub)]; rewrite Hpub.
  - split; [reflexivity | simpl; lia].
  - split; [contradiction | simpl; lia].
Qed.

(** X13. The status LED.  A poll of the LED never raises, never publishes,
    and changes nothing of the node but [led_state] and [last_led_toggle].
    It does one of three things: nothing; or, outside the three blinking
    modes, switch the LED on and leave the node as it is; or toggle, in which
    case the level written to the pin is the new [led_state], the opposite of
    the old one, and the clock is stored.  After a toggle at clock [now], a
    poll within 500 ms of [ticks_diff] does nothing. *)
Theorem status_led_behaviour :
  forall (now : Z) (s : node),
    let r := handle_status_led now s in
    result_of r = Return tt /\
    published (trace_of r) = [] /\
    without_led (node_of r) = without_led s /\
    ((trace_of r = [] /\ node_of r = s) \/
     (trace_of r = [LedOn] /\ node_of r = s /\
      ~ 0 <= current_mode s <= 2) \/
     (trace_of r = [LedValue (led_state (node_of r))] /\
      led_state (node_of r) = negb (led_state s) /\
      last_led_toggle (node_of r) = now /\
      0 <= current_mode s <= 2 /\
      forall u : Z,
        ticks_diff u now <= 500 ->
        handle_status_led u (node_of r) = (Return tt, node_of r, []))).
Proof.
  intros now s r. subst r.
  split; [apply handle_status_led_returns |].
  destruct (handle_status_led_run now s) as (s' & t & Hrun & Hmute & _).
  split; [rewrite Hrun; exact Hmute |]. clear s' t Hrun Hmute.
  unfold handle_status_led, blink, bind, get. cbv beta iota.
  destruct (Z.eqb_spec (current_mode s) DO_NOT_DISTURB) as [E0 | E0].
  { destruct (ticks_diff now (last_led_toggle s) >? 2000);
      cbn; (split; [reflexivity |]); [right; right | left; auto].
    repeat split; try (rewrite E0; unfold DO_NOT_DISTURB; lia).
    intros u Hu. rewrite E0. cbn.
    destruct (Z.gtb_spec (ticks_diff u now) 2000); [lia | reflexivity]. }
  destruct (Z.eqb_spec (current_mode s) AVAILABLE) as [E1 | E1].
  { destruct (ticks_diff now (last_led_toggle s) >? 1000);
      cbn; (split; [reflexivity |]); [right; right | left; auto].
    repeat split; try (rewrite E1; unfold AVAILABLE; lia).
    intros u Hu. rewrite E1. cbn.
    destruct (Z.gtb_spec (ticks_diff u now) 1000); [lia | reflexivity]. }
  destruct (Z.eqb_spec (current_mode s) CHILL_GRINDING) as [E2 | E2].
  { destruct (ticks_diff now (last_led_toggle s) >? 500);
      cbn; (split; [reflexivity |]); [right; right | left; auto].
    repeat split; try (rewrite E2; unfold CHILL_GRINDING; lia).
    intros u Hu. rewrite E2. cbn.
    destruct (Z.gtb_spec (ticks_diff u now) 500); [lia | reflexivity]. }
  cbn. split; [reflexivity |]. right. left. repeat split.
  unfold DO_NOT_DISTURB, AVAILABLE, CHILL_GRINDING in *. lia.
Qed.

End Footprints.

Section SameIteration.
Context {P : Platform}.

(** X14. A request and a press in one iteration.  The loop takes the
    packet before it polls the button.  So in ChillGrinding with nothing
    pending, an iteration that receives a ring request for a non-empty
    chime_id X and then reads a qualifying press does not change the mode: the
    press answers the request that has just come in.  The iteration publishes
    exactly one message, the "Positive" response for X, and ends with nothing
    pending and the mode still ChillGrinding. *)
Theorem request_and_press_in_one_iteration :
  forall (s : node) (i : tick) (topic msg prefix message : string)
         (members : list (string * json)) (X u : json),
    current_mode s = CHILL_GRINDING ->
    incoming i = Some (topic, msg) ->
    decode topic = Some (prefix ++ "/ring")%string ->
    decode msg = Some message ->
    loads message = Some (JObj members) ->
    assoc "chime_id" members = Some X ->
    assoc "user" members = Some u ->
    truthy X = true ->
    qualifying_press s (pin i) (t_button i) = true ->
    let r := loop_iteration i s in
    result_of r = Return tt /\
    published (trace_of r)
      = [(("/micropython_user/chime/" ++ chime_id s ++ "/response")%string,
          dumps (JObj [ ("timestamp", JStr "2025-01-01T00:00:00Z");
                        ("response", JStr "Positive");
                        ("node_id", JStr (node_id s));
                        ("original_chime_id", X) ]),
          false)] /\
    pending_chime_id (node_of r) = JStr "" /\
    chime_response_deadline (node_of r) = 0 /\
    current_mode (node_of r) = CHILL_GRINDING.
Proof.
  intros s i topic msg prefix message members X u
         Hmode Hin Htopic Hmsg Hl Hx Hu HX Hq r. subst r.
  unfold loop_iteration. rewrite Hin. cbn [check_msg].
  assert (Hcb : mqtt_callback topic msg (t_msg i) s
                = handle_ring_request message (t_msg i) s)
    by (apply (callback_on_ring_topic topic msg prefix message); assumption).
  pose proof (handle_ring_request_run message (t_msg i) s) as Hring.
  rewrite (ring_request_body_by_mode message (t_msg i) s members X u Hl Hx Hu)
    in Hring.
  cbv zeta in Hring. rewrite Hmode in Hring. simpl in Hring.
  rewrite <- Hcb in Hring. rewrite (bind_run _ _ _ _ _ _ Hring).
  set (s1 := deferred X (t_msg i) s).
  pose proof (press_answers_run s1 (pin i) (t_button i) Hq HX) as Hpress.
  rewrite (bind_run _ _ _ _ _ _ Hpress).
  set (s2 := answered (t_button i) s1).
  destruct (handle_status_led_run (t_led i) s2) as (s3 & t3 & Hled & Hmute & Hcore).
  rewrite (bind_run _ _ _ _ _ _ Hled).
  destruct (core_fields _ _ Hcore) as (_ & _ & Hm3 & Hp3 & Hd3).
  pose proof (handle_pending_responses_run (t_poll i) s3) as Hpoll.
  rewrite Hp3 in Hpoll. simpl in Hpoll.
  rewrite (bind_run _ _ _ _ _ _ Hpoll).
  cbn [result_of node_of trace_of fst snd emit].
  rewrite !published_app, Hmute, (mute_play_chime _ _ s1).
  rewrite Hm3, Hp3, Hd3. repeat split. simpl. exact Hmode.
Qed.

(** X15. The advertisement.  [publish_chime_info] never raises -- not even
    when a publish call fails, nor when the mode name cannot be looked up --
    and leaves the node as it is.  Everything it publishes is retained; the
    chime list comes first and is always attempted, the notes follow only if
    that call went through, the chords only if the notes did, and the status
    only if all three did. *)
Theorem publish_chime_info_behaviour :
  forall (note_names : list string) (ok_list ok_notes ok_chords : bool)
         (s : node),
    let r := publish_chime_info note_names ok_list ok_notes ok_chords s in
    result_of r = Return tt /\
    node_of r = s /\
    Forall (fun m => snd m = true) (published (trace_of r)) /\
    published (trace_of r)
    = (list_topic, dumps (list_data note_names s), true)
      :: (if ok_list then
            (notes_topic s, dumps (JArr (map JStr note_names)), true)
            :: (if ok_notes then
                  (chords_topic s, dumps (JArr (map JStr CHORDS)), true)
                  :: (if ok_chords then published (trace_of (publish_status s))
                      else [])
                else [])
          else []).
Proof.
  intros note_names ok_list ok_notes ok_chords s r. subst r.
  destruct (publish_status_trace s) as [Hnode Htrace].
  assert (Hretained :
    Forall (fun m : string * string * bool => snd m = true)
           (published (trace_of (publish_status s)))).
  { destruct Htrace as [E | (name & _ & E)]; rewrite E;
      repeat constructor. }
  unfold publish_chime_info, try_except, bind, get, emit. cbv beta iota.
  destruct ok_list; [| cbn; repeat split; repeat constructor].
  destruct ok_notes; [| cbn; repeat split; repeat constructor].
  destruct ok_chords; [| cbn; repeat split; repeat constructor].
  unfold node_of, trace_of in Hnode, Hretained |- *.
  destruct (publish_status s) as [[[[] | e] s1] t1];
    cbn [fst snd] in Hnode, Hretained; cbn; subst s1;
    rewrite ?app_nil_r; repeat split; repeat constructor; exact Hretained.
Qed.

End SameIteration.

(** ** The further theorems at work on the stand-in platform *)

Section MoreOnTheDemoPlatform.
#[local] Existing Instance Demo.platform.

(** The packet on the subscribed topic is handed to the ring handler. *)
Lemma ring_packets_reach_the_handler_witness :
  mqtt_callback Demo.ring_topic Demo.ring_X 5000 Demo.released_node
  = handle_ring_request Demo.ring_X 5000 Demo.released_node.
Proof.
  apply (proj1 (proj2
    (proj1 (ring_packets_reach_the_handler (P := Demo.platform)
              Demo.ring_topic Demo.ring_X 5000 Demo.released_node)
       Demo.ring_topic Demo.ring_X eq_refl eq_refl)) Demo.start).
  reflexivity.
Defined.

(** Two iterations, the first with a ring request, run to the end. *)
Lemma only_undecodable_packets_raise_witness :
  result_of
    (run_loop [ mkTick (Some (Demo.ring_topic, Demo.ring_X)) 5000 1 5000 5000 5000;
                Demo.idle_tick 5010 ] Demo.start)
  = Return tt.
Proof.
  apply (proj2 (proj2 (proj2 (proj2 (proj2 (proj2
    (only_undecodable_packets_raise (P := Demo.platform) Demo.start)))))
    [ mkTick (Some (Demo.ring_topic, Demo.ring_X)) 5000 1 5000 5000 5000;
      Demo.idle_tick 5010 ])).
  apply Forall_cons; [split; discriminate |].
  apply Forall_cons; [exact I | apply Forall_nil].
Defined.

(** Outside ChillGrinding the request for X leaves the node as it was. *)
Lemma ring_request_footprint_witness :
  node_of (handle_ring_request Demo.ring_X 5000 Demo.start) = Demo.start.
Proof.
  apply (proj1 (proj2
    (ring_request_footprint (P := Demo.platform) Demo.ring_X 5000 Demo.start))).
  discriminate.
Defined.

(** In ChillGrinding, a request at tick 5000 and a press at tick 6000 of the
    same iteration leave nothing pending. *)
Lemma request_and_press_in_one_iteration_witness :
  pending_chime_id
    (node_of
       (loop_iteration
          (mkTick (Some (Demo.ring_topic, Demo.ring_X)) 5000 0 6000 6000 6000)
          Demo.released_node))
  = JStr "".
Proof.
  apply (proj1 (proj2 (proj2
    (request_and_press_in_one_iteration (P := Demo.platform)
       Demo.released_node
       (mkTick (Some (Demo.ring_topic, Demo.ring_X)) 5000 0 6000 6000 6000)
       Demo.ring_topic Demo.ring_X
       "/micropython_user/chime/chime_a1b2c3d4e5f6" Demo.ring_X
       [("chime_id", JStr "X"); ("user", JStr "u")] (JStr "X") (JStr "u")
       eq_refl eq_refl eq_refl eq_refl eq_refl eq_refl eq_refl eq_refl
       eq_refl)))).
Defined.

End MoreOnTheDemoPlatform.

Section EndToEnd.
Context {P : Platform}.

Lemma names_trace (names : list string) :
  flat_map item_trace (map JStr names) = explicit_trace names.
Proof.
  unfold explicit_trace.
  induction names as [| n rest IH]; [reflexivity |].
  cbn [map flat_map]. rewrite IH. reflexivity.
Qed.

Lemma play_names_run (names : list string) (chords : json) (s : node) :
  play_chime (JArr (map JStr names)) chords s =
  (Return tt, s,
   match names with
   | [] => default_trace
   | _ :: _ => explicit_trace names
   end ++ [BuzzerDuty 0]).
Proof.
  rewrite play_chime_run. destruct names as [| n rest]; [reflexivity |].
  change (truthy (JArr (map JStr (n :: rest)))) with true. cbv iota.
  cbn [iterated]. rewrite names_trace. reflexivity.
Qed.

(** X16. A ring request from end to end.  For a request that parsed and
    whose notes are a list of names (empty when the key is absent), the
    handler does exactly this: in DoNotDisturb, nothing; in Available, the
    chime -- the named notes at 300 ms each, or the default pattern when
    there are none -- closed by [buzzer.duty(0)], and no message; in
    ChillGrinding, the same chime after recording the request as pending; in
    Grinding, the same chime and then, once it is over, one "Positive"
    response for the request's chime_id. *)
Theorem ring_request_end_to_end :
  forall (s : node) (message : string) (now : Z)
         (members : list (string * json)) (X u : json) (names : list string),
    loads message = Some (JObj members) ->
    assoc "chime_id" members = Some X ->
    assoc "user" members = Some u ->
    request_notes members = JArr (map JStr names) ->
    let chime := match names with
                 | [] => default_trace
                 | _ :: _ => explicit_trace names
                 end ++ [BuzzerDuty 0] in
    (current_mode s = DO_NOT_DISTURB ->
       handle_ring_request message now s = (Return tt, s, [])) /\
    (current_mode s = AVAILABLE ->
       handle_ring_request message now s = (Return tt, s, chime)) /\
    (current_mode s = CHILL_GRINDING ->
       handle_ring_request message now s = (Return tt, deferred X now s, chime)) /\
    (current_mode s = GRINDING ->
       handle_ring_request message now s
       = (Return tt, s,
          chime ++
          [Publish ("/micropython_user/chime/" ++ chime_id s ++ "/response")%string
             (dumps (JObj [ ("timestamp", JStr "2025-01-01T00:00:00Z");
                            ("response", JStr "Positive");
                            ("node_id", JStr (node_id s));
                            ("original_chime_id", X) ]))
             false])).
Proof.
  intros s message now members X u names Hl Hx Hu Hnotes chime.
  pose proof (ring_request_body_by_mode message now s members X u Hl Hx Hu)
    as Hbody.
  cbv zeta in Hbody. rewrite Hnotes in Hbody.
  rewrite !play_names_run in Hbody. fold chime in Hbody.
  cbn [result_of trace_of fst snd] in Hbody.
  rewrite handle_ring_request_run, Hbody.
  split; [| split; [| split]]; intro Hmode; rewrite Hmode; reflexivity.
Qed.

End EndToEnd.

Section EndToEndDemo.
#[local] Existing Instance Demo.platform.

(** In Available the request for X, which names no notes, plays the default
    chime and publishes nothing. *)
Lemma ring_request_end_to_end_witness :
  handle_ring_request Demo.ring_X 5000 Demo.start
  = (Return tt, Demo.start, default_trace ++ [BuzzerDuty 0]).
Proof.
  apply (proj1 (proj2
    (ring_request_end_to_end (P := Demo.platform) Demo.start Demo.ring_X 5000
       [("chime_id", JStr "X"); ("user", JStr "u")] (JStr "X") (JStr "u") []
       eq_refl eq_refl eq_refl eq_refl))).
  reflexivity.
Defined.

End EndToEndDemo.
